(** * lean-cli: data downloader and equity-option product

    A shallow embedding of
      - [lean/components/cloud/data_downloader.py]  (class [DataDownloader])
      - [lean/models/products/equity_option.py]     (class [EquityOptionProduct])
    and the properties of the catalog/download engine stated over it.

    Python text is modelled by [string] (a sequence of bytes); the case
    conversion [lower] is the ASCII one, which is what Python's [str.lower]
    does on ASCII text (tickers, markets and enum names are ASCII).
    Exceptions are values of [exn]; a method of the downloader is a function
    from the state before the call to an outcome and the state after it, so
    that what a call changed before it raised is still visible.

    Everything outside the two classes is a collaborator: the API client,
    the configuration manager, the logger, [click.confirm], [pathlib] and the
    disk, [zipfile], [MapFile.parse], the regular-expression engine and the
    methods inherited from [SecurityProduct].  A collaborator is a function
    of an environment, and each of its calls is recorded as an event with
    the answer it gave.  The tests [path.exists()] and [path.is_file()] and
    the prompt [click.confirm] always answer in this model (a permission
    error of the former, an aborted prompt of the latter are left out). *)

From Stdlib Require Import String Ascii List Bool Arith NArith Lia Sorted RelationClasses.
Import ListNotations.
Open Scope list_scope.
Open Scope string_scope.

(* ================================================================== *)
(** ** Python string operations used by the source *)

Module PyStr.

(** [s.endswith(suf)] *)
Fixpoint endswith (s suf : string) : bool :=
  if String.eqb s suf then true
  else match s with
       | EmptyString => false
       | String _ s' => endswith s' suf
       end.

(** [needle in hay] on [str]. *)
Fixpoint contains (needle hay : string) : bool :=
  if String.prefix needle hay then true
  else match hay with
       | EmptyString => false
       | String _ hay' => contains needle hay'
       end.

(** ASCII case folding of one character: 'A'..'Z' to 'a'..'z'. *)
Definition lower_ascii (c : ascii) : ascii :=
  let n := nat_of_ascii c in
  if Nat.leb 65 n && Nat.leb n 90 then ascii_of_nat (n + 32) else c.

(** [s.lower()] *)
Fixpoint lower (s : string) : string :=
  match s with
  | EmptyString => EmptyString
  | String c s' => String (lower_ascii c) (lower s')
  end.

(** The one-character string "\n". *)
Definition newline : string := String (ascii_of_nat 10) EmptyString.

(** ["\n".join(parts)] *)
Definition join_lines (parts : list string) : string :=
  String.concat newline parts.

(** Python's [<] on [str] is the lexicographic order on code points. *)
Definition str_le (a b : string) : bool := String.leb a b.

End PyStr.

(* ================================================================== *)
(** ** Exceptions and outcomes *)

Inductive exn : Type :=
| RequestFailedError (msg : string)
    (* lean.models.errors.RequestFailedError; [msg] is [str(error)] *)
| IndexError                  (* list index out of range *)
| AttributeError              (* attribute access on [None] *)
| OtherError (what : string). (* any other exception raised by a collaborator *)

Inductive result (A : Type) : Type :=
| Ok (a : A)
| Raise (e : exn).
Arguments Ok {A} a.
Arguments Raise {A} e.

Definition is_ok {A : Type} (r : result A) : bool :=
  match r with Ok _ => true | Raise _ => false end.

(** [xs[-1]]: the last element, [IndexError] on the empty list. *)
Fixpoint py_last {A : Type} (xs : list A) : result A :=
  match xs with
  | [] => Raise IndexError
  | [x] => Ok x
  | _ :: rest => py_last rest
  end.

(* ================================================================== *)
(** ** The world the downloader runs in *)

(** A local path, identified by its text ([str(path)]). *)
Definition Path : Type := string.

Definition bytes : Type := list Byte.byte.

(** An opened [zipfile.ZipFile]: the names of [zip_file.filelist] in archive
    order and [zip_file.read(name)]. *)
Record zip_archive : Type := {
  filelist : list string;
  zip_read : string -> result bytes
}.

(** [pathlib] and the local file system.  The state of the disk is [FS];
    a failing [mkdir] or write may leave the disk changed.  The one law:
    [zipfile.ZipFile(path)] opens the path for reading, which fails when
    there is no regular file at it. *)
Class FileSystem (FS : Type) : Type := {
  path_join : Path -> string -> Path;       (* [directory / relative]       *)
  path_parent : Path -> Path;               (* [path.parent]                *)
  fs_exists : FS -> Path -> bool;           (* [path.exists()]              *)
  fs_is_file : FS -> Path -> bool;          (* [path.is_file()]             *)
  fs_mkdir : FS -> Path -> result unit * FS;
                                  (* [path.mkdir(parents=True, exist_ok=True)] *)
  fs_write : FS -> Path -> bytes -> result unit * FS;
                                  (* [path.open("wb+")] and [f.write(content)] *)
  fs_zip_open : FS -> Path -> result zip_archive;   (* [zipfile.ZipFile(path)] *)
  (* what is not a regular file cannot be opened as an archive *)
  fs_zip_open_is_file : forall (d : FS) (p : Path),
      fs_is_file d p = false -> is_ok (fs_zip_open d p) = false
}.

(** The four data kinds [EquityOptionProduct.build] offers, members of
    [lean.models.products.security.DataType]. *)
Inductive DataType : Type := Trade | Quote | OpenInterest | Chains.

Inductive OptionStyle : Type := American | European.

(** The fields of an [EquityOptionProduct] ([SecurityProduct.__init__] stores
    the arguments it is given). *)
Record EquityOptionProduct : Type := {
  _data_type : DataType;
  _market : string;
  _ticker : string;
  _resolution : string;
  _option_style : option OptionStyle;
  _start_date : option string;
  _end_date : option string
}.

Section Program.

Context {MapFile Price FS : Type} `{FileSystem FS}.

(** One element of [data_files]: [data_file.file], [data_file.vendor.price]. *)
Record data_file : Type := {
  file : string;
  vendor_price : Price
}.

(** What the program asks of its collaborators, in the order it asks, each
    call with the answer it got. *)
Inductive event : Type :=
| LogProgress (index total : nat) (f : string) (price : Price)
    (* logger.info("[index/total] Downloading f (price QCC)") *)
| LogInfo (msg : string)
| LogWarn (msg : string)
| Confirm (prompt : string) (answer : bool)
| GetDataDirectory (answer : result Path)
| ListFiles (prefix : string) (answer : result (list string))
| DownloadFile (relative_file organization_id : string) (answer : result bytes)
| Mkdir (p : Path) (answer : result unit)
| WriteFile (p : Path) (content : bytes) (answer : result unit)
| ZipOpen (p : Path) (answer : result zip_archive)
| ZipRead (name : string) (answer : result bytes)
| Decode (raw : bytes) (answer : result string)
| Parse (text : string) (answer : result MapFile)
| TradableDates (answer : result (list string))
| DataFilesInRange (prefix pattern : string) (answer : result (list string)).

(** The collaborators outside the repository's logic.  Each answer may depend
    on everything that happened before it (the trace so far). *)
Record Env : Type := {
  get_data_directory : list event -> result Path;
      (* LeanConfigManager.get_data_directory() *)
  api_list_files : list event -> string -> result (list string);
      (* api_client.data.list_files(prefix) *)
  api_download_file : list event -> string -> string -> result bytes;
      (* api_client.data.download_file(relative_file, organization_id) *)
  click_confirm : list event -> string -> bool;
      (* click.confirm(prompt, default=False) *)
  decode_utf8 : bytes -> result string;           (* bytes.decode("utf-8") *)
  MapFile_parse : string -> result MapFile;       (* MapFile.parse(text)   *)
  re_search : string -> string -> bool;
      (* whether the regular expression (first) matches in the text (second) *)
  tradable_dates : EquityOptionProduct -> list event -> result (list string);
      (* SecurityProduct._get_tradable_dates(), each date as it formats *)
  data_files_in_range :
    EquityOptionProduct -> list event -> string -> string -> result (list string)
      (* SecurityProduct._get_data_files_in_range(prefix, pattern) *)
}.

(** The [DataDownloader] instance ([_force_overwrite], [_map_files_cache]),
    the local disk and the trace of events, oldest first. *)
Record state : Type := {
  _force_overwrite : option bool;
  _map_files_cache : option (list MapFile);
  disk : FS;
  trace : list event
}.

Definition add_event (ev : event) (st : state) : state :=
  {| _force_overwrite := _force_overwrite st;
     _map_files_cache := _map_files_cache st;
     disk := disk st;
     trace := (trace st ++ [ev])%list |}.

Definition set_disk (d : FS) (st : state) : state :=
  {| _force_overwrite := _force_overwrite st;
     _map_files_cache := _map_files_cache st;
     disk := d;
     trace := trace st |}.

Definition set_force_overwrite (v : option bool) (st : state) : state :=
  {| _force_overwrite := v;
     _map_files_cache := _map_files_cache st;
     disk := disk st;
     trace := trace st |}.

Definition set_map_files_cache (v : option (list MapFile)) (st : state) : state :=
  {| _force_overwrite := _force_overwrite st;
     _map_files_cache := v;
     disk := disk st;
     trace := trace st |}.

(** [DataDownloader.__init__]: both fields start as [None]. *)
Definition __init__ (d : FS) (t : list event) : state :=
  {| _force_overwrite := None;
     _map_files_cache := None;
     disk := d;
     trace := t |}.

(** The events added between two states of one execution. *)
Definition issued (before after : state) : list event :=
  skipn (length (trace before)) (trace after).

(* ------------------------------------------------------------------ *)
(** *** State and exception monad *)

Definition M (A : Type) : Type := state -> result A * state.

Definition ret {A : Type} (a : A) : M A := fun st => (Ok a, st).

Definition raise {A : Type} (e : exn) : M A := fun st => (Raise e, st).

Definition bind {A B : Type} (m : M A) (k : A -> M B) : M B :=
  fun st =>
    match m st with
    | (Ok a, st') => k a st'
    | (Raise e, st') => (Raise e, st')
    end.

(** [try: m] with the outcome handed to the handler. *)
Definition try {A : Type} (m : M A) : M (result A) :=
  fun st => let (r, st') := m st in (Ok r, st').

Definition lift {A : Type} (r : result A) : M A := fun st => (r, st).

Definition gets {A : Type} (f : state -> A) : M A := fun st => (Ok (f st), st).

Definition modify (f : state -> state) : M unit := fun st => (Ok tt, f st).

(** A call to a collaborator: its answer, and the event that records it. *)
Definition call {A : Type} (answer : state -> result A)
    (record : result A -> event) : M A :=
  fun st => let r := answer st in (r, add_event (record r) st).

End Program.

Arguments data_file : clear implicits.
Arguments event : clear implicits.
Arguments Env : clear implicits.
Arguments state : clear implicits.
Arguments M : clear implicits.
Arguments issued {MapFile Price FS} before after : simpl never.

Declare Scope py_scope.
Delimit Scope py_scope with py.
Notation "x <- m ;; k" := (bind m (fun x => k))
  (at level 61, m at next level, right associativity) : py_scope.
Notation "m ;; k" := (bind m (fun _ => k))
  (at level 61, right associativity) : py_scope.
Open Scope py_scope.

(* ================================================================== *)
(** ** [DataDownloader] *)

Section DataDownloader.

Context {MapFile Price FS : Type} `{FileSystem FS}.
Variable env : Env MapFile Price.

Local Abbreviation state := (state MapFile Price FS).
Local Abbreviation event := (event MapFile Price).
Local Abbreviation M := (M MapFile Price FS).

(* ------------------------------------------------------------------ *)
(** *** Calls to the collaborators *)

Definition emit (ev : event) : M unit := modify (add_event ev).

Definition logger_info (msg : string) : M unit := emit (LogInfo msg).

Definition logger_warn (msg : string) : M unit := emit (LogWarn msg).

Definition confirm (prompt : string) : M bool :=
  fun st =>
    let answer := click_confirm env (trace st) prompt in
    (Ok answer, add_event (Confirm prompt answer) st).

Definition lean_config_get_data_directory : M Path :=
  call (fun st => get_data_directory env (trace st)) GetDataDirectory.

Definition list_files (prefix : string) : M (list string) :=
  call (fun st => api_list_files env (trace st) prefix) (ListFiles prefix).

Definition download_file (relative_file organization_id : string) : M bytes :=
  call (fun st => api_download_file env (trace st) relative_file organization_id)
       (DownloadFile relative_file organization_id).

Definition path_exists (p : Path) : M bool := gets (fun st => fs_exists (disk st) p).

Definition path_is_file (p : Path) : M bool := gets (fun st => fs_is_file (disk st) p).

Definition mkdir (p : Path) : M unit :=
  fun st =>
    let (r, d) := fs_mkdir (disk st) p in
    (r, add_event (Mkdir p r) (set_disk d st)).

Definition write_file (p : Path) (content : bytes) : M unit :=
  fun st =>
    let (r, d) := fs_write (disk st) p content in
    (r, add_event (WriteFile p content r) (set_disk d st)).

Definition open_zip (p : Path) : M zip_archive :=
  call (fun st => fs_zip_open (disk st) p) (ZipOpen p).

Definition read_zip (z : zip_archive) (name : string) : M bytes :=
  call (fun _ => zip_read z name) (ZipRead name).

Definition decode (raw : bytes) : M string :=
  call (fun _ => decode_utf8 env raw) (Decode raw).

Definition parse (text : string) : M MapFile :=
  call (fun _ => MapFile_parse env text) (Parse text).

(** Python truthiness of [self._force_overwrite] ([None], [True] or [False]). *)
Definition truthy (v : option bool) : bool :=
  match v with
  | Some b => b
  | None => false
  end.

(* ------------------------------------------------------------------ *)
(** *** The methods *)

Definition already_exists_msg (path : Path) : string :=
  path ++ " already exists, use --overwrite to overwrite it".

Definition confirm_prompt : string :=
  "Do you want to temporarily enable overwriting for the previously selected items?".

Definition not_billed_msg : string := "You have not been billed for this file".

Definition _should_overwrite (overwrite_flag : bool) (path : Path) : M bool :=
  force <- gets _force_overwrite ;;
  if overwrite_flag || truthy force then ret true
  else
    logger_warn (already_exists_msg path) ;;
    (match force with
     | None =>
         answer <- confirm confirm_prompt ;;
         modify (set_force_overwrite (Some answer))
     | Some _ => ret tt
     end) ;;
    force <- gets _force_overwrite ;;
    (if negb (truthy force) then logger_warn not_billed_msg else ret tt) ;;
    ret (truthy force).

Definition not_found_msg (relative_file : string) : string :=
  PyStr.join_lines
    [relative_file ++ " does not exist in the QuantConnect Data Library";
     not_billed_msg].

(** The test of the handler: [isinstance(error, RequestFailedError)] and
    ["File not found" in str(error)]. *)
Definition file_not_found (e : exn) : bool :=
  match e with
  | RequestFailedError msg => PyStr.contains "File not found" msg
  | _ => false
  end.

Definition _download_file (relative_file : string) (overwrite_flag : bool)
    (data_directory : Path) (organization_id : string) : M unit :=
  let local_path := path_join data_directory relative_file in
  present <- path_exists local_path ;;
  skip <- (if present
           then allowed <- _should_overwrite overwrite_flag local_path ;;
                ret (negb allowed)
           else ret false) ;;
  if skip then ret tt
  else
    fetched <- try (download_file relative_file organization_id) ;;
    match fetched with
    | Raise (RequestFailedError msg) =>
        if PyStr.contains "File not found" msg
        then logger_warn (not_found_msg relative_file)
        else raise (RequestFailedError msg)
    | Raise e => raise e
    | Ok file_content =>
        mkdir (path_parent local_path) ;;
        write_file local_path file_content
    end.

(** The [for] loop of [download_files], from position [index] of a list of
    [total] files. *)
Fixpoint download_loop (total index : nat) (data_files : list (data_file Price))
    (overwrite_flag : bool) (data_dir : Path) (organization_id : string) : M unit :=
  match data_files with
  | [] => ret tt
  | df :: rest =>
      emit (LogProgress (index + 1) total (file df) (vendor_price df)) ;;
      _download_file (file df) overwrite_flag data_dir organization_id ;;
      download_loop total (S index) rest overwrite_flag data_dir organization_id
  end.

Definition download_files (data_files : list (data_file Price))
    (overwrite_flag : bool) (organization_id : string) : M unit :=
  data_dir <- lean_config_get_data_directory ;;
  download_loop (length data_files) 0 data_files overwrite_flag data_dir
                organization_id.

(** The loop over [zip_file.filelist]; [acc] is [map_files] so far. *)
Fixpoint read_map_files (z : zip_archive) (names : list string)
    (acc : list MapFile) : M (list MapFile) :=
  match names with
  | [] => ret acc
  | name :: rest =>
      raw <- read_zip z name ;;
      text <- decode raw ;;
      parsed <- parse text ;;
      read_map_files z rest (acc ++ [parsed])%list
  end.

Definition is_zip (m : string) : bool := PyStr.endswith m ".zip".

(** [[m for m in map_files if m.endswith(".zip")][-1]] *)
Definition latest_map_files_zip (map_files : list string) : result string :=
  py_last (filter is_zip map_files).

Definition map_files_prefix : string := "equity/usa/map_files".

Definition download_map_files (organization_id : string) : M (list MapFile) :=
  cache <- gets _map_files_cache ;;
  match cache with
  | Some cached => ret cached
  | None =>
      map_files <- list_files map_files_prefix ;;
      map_files_zip <- lift (latest_map_files_zip map_files) ;;
      data_directory <- lean_config_get_data_directory ;;
      let map_files_zip_path := path_join data_directory map_files_zip in
      on_disk <- path_is_file map_files_zip_path ;;
      (if negb on_disk
       then logger_info "Downloading the latest map files (free)" ;;
            _download_file map_files_zip true data_directory organization_id
       else ret tt) ;;
      archive <- open_zip map_files_zip_path ;;
      map_files <- read_map_files archive (filelist archive) [] ;;
      modify (set_map_files_cache (Some map_files)) ;;
      ret map_files
  end.

End DataDownloader.

(* ================================================================== *)
(** ** [EquityOptionProduct] *)

Module DataTypeEnum.
(** [data_type.name] *)
Definition name (t : DataType) : string :=
  match t with
  | Trade => "Trade"
  | Quote => "Quote"
  | OpenInterest => "OpenInterest"
  | Chains => "Chains"
  end.

(** [data_type is DataType.Chains] *)
Definition is_chains (t : DataType) : bool :=
  match t with
  | Chains => true
  | _ => false
  end.
End DataTypeEnum.

Module OptionStyleEnum.
(** [option_style.name] *)
Definition name (s : OptionStyle) : string :=
  match s with
  | American => "American"
  | European => "European"
  end.
End OptionStyleEnum.

Section EquityOption.

Context {MapFile Price FS : Type} `{FileSystem FS}.
Variable env : Env MapFile Price.

Local Abbreviation M := (M MapFile Price FS).

(** [f"option/{market.lower()}/{'chains' if data_type is DataType.Chains else 'minute'}"] *)
Definition base_directory (market : string) (data_type : DataType) : string :=
  "option/" ++ PyStr.lower market ++ "/"
  ++ (if DataTypeEnum.is_chains data_type then "chains" else "minute").

(** [option_style.name]; on [None] the attribute access raises. *)
Definition option_style_name (option_style : option OptionStyle) : M string :=
  match option_style with
  | Some s => ret (OptionStyleEnum.name s)
  | None => raise AttributeError
  end.

(** The pattern of [validate_ticker]:
    [fr"/\d+_{data_type.name.lower()}_{option_style.name.lower()}\.zip"] *)
Definition probe_pattern (data_type : DataType) (style_name : string) : string :=
  "/\d+_" ++ PyStr.lower (DataTypeEnum.name data_type) ++ "_"
  ++ PyStr.lower style_name ++ "\.zip".

(** The pattern of [_get_data_files], with the date as capture group:
    [fr"/(\d+)_{data_type.name.lower()}_{option_style.name.lower()}\.zip"] *)
Definition date_pattern (data_type : DataType) (style_name : string) : string :=
  "/(\d+)_" ++ PyStr.lower (DataTypeEnum.name data_type) ++ "_"
  ++ PyStr.lower style_name ++ "\.zip".

(** Modelled from the spec: [Product._list_files(prefix, pattern)], defined in
    lean/models/products/base.py.  Section 4.1: it "lists remote entries under
    [prefix], applies the pattern", and keeps the entries that match. *)
Definition _list_files (prefix pattern : string) : M (list string) :=
  entries <- list_files env prefix ;;
  ret (filter (re_search env pattern) entries).

(** [market = "USA"] in [EquityOptionProduct.build]. *)
Definition build_market : string := "USA".

(** The closure [validate_ticker] of [EquityOptionProduct.build], over the
    [data_type] and [option_style] of its enclosing call. *)
Definition validate_ticker (data_type : DataType)
    (option_style : option OptionStyle) (t : string) : M bool :=
  if DataTypeEnum.is_chains data_type then ret true
  else
    let prefix := base_directory build_market data_type
                  ++ "/" ++ PyStr.lower t ++ "/" in
    style_name <- option_style_name option_style ;;
    found <- _list_files prefix (probe_pattern data_type style_name) ;;
    ret (Nat.ltb 0 (length found)).

(** [self._get_tradable_dates()] *)
Definition _get_tradable_dates (self : EquityOptionProduct) : M (list string) :=
  call (fun st => tradable_dates env self (trace st)) TradableDates.

(** [self._get_data_files_in_range(prefix, pattern)] *)
Definition _get_data_files_in_range (self : EquityOptionProduct)
    (prefix pattern : string) : M (list string) :=
  call (fun st => data_files_in_range env self (trace st) prefix pattern)
       (DataFilesInRange prefix pattern).

(** [f"{base_directory}/{date}/{self._ticker.lower()}.csv"] *)
Definition chains_file (base date ticker : string) : string :=
  base ++ "/" ++ date ++ "/" ++ PyStr.lower ticker ++ ".csv".

(** The [for date in ...] loop of [_get_data_files]; [files] is the list so
    far. *)
Fixpoint append_chains_files (base ticker : string) (dates files : list string)
    : list string :=
  match dates with
  | [] => files
  | date :: rest =>
      append_chains_files base ticker rest
                          (files ++ [chains_file base date ticker])%list
  end.

Definition _get_data_files (self : EquityOptionProduct) : M (list string) :=
  let base := base_directory (_market self) (_data_type self) in
  if negb (DataTypeEnum.is_chains (_data_type self))
  then
    let prefix := base ++ "/" ++ PyStr.lower (_ticker self) ++ "/" in
    style_name <- option_style_name (_option_style self) ;;
    _get_data_files_in_range self prefix (date_pattern (_data_type self) style_name)
  else
    dates <- _get_tradable_dates self ;;
    ret (append_chains_files base (_ticker self) dates []).

End EquityOption.

(* ================================================================== *)
(** ** Reading traces *)

Section Traces.

Context {MapFile Price : Type}.

Local Abbreviation event := (event MapFile Price).

Definition is_confirm (ev : event) : bool :=
  match ev with Confirm _ _ => true | _ => false end.

Definition is_listing (ev : event) : bool :=
  match ev with ListFiles _ _ => true | _ => false end.

Definition is_fetch (ev : event) : bool :=
  match ev with DownloadFile _ _ _ => true | _ => false end.

Definition is_disk_write (ev : event) : bool :=
  match ev with Mkdir _ _ | WriteFile _ _ _ => true | _ => false end.

Definition is_archive_access (ev : event) : bool :=
  match ev with ZipOpen _ _ | ZipRead _ _ => true | _ => false end.

Definition is_range_or_probe (ev : event) : bool :=
  match ev with ListFiles _ _ | DataFilesInRange _ _ _ => true | _ => false end.

(** The call recorded by the event raised. *)
Definition failed (ev : event) : bool :=
  match ev with
  | GetDataDirectory r => negb (is_ok r)
  | ListFiles _ r => negb (is_ok r)
  | DownloadFile _ _ r => negb (is_ok r)
  | Mkdir _ r => negb (is_ok r)
  | WriteFile _ _ r => negb (is_ok r)
  | ZipOpen _ r => negb (is_ok r)
  | ZipRead _ r => negb (is_ok r)
  | Decode _ r => negb (is_ok r)
  | Parse _ r => negb (is_ok r)
  | TradableDates r => negb (is_ok r)
  | DataFilesInRange _ _ r => negb (is_ok r)
  | LogProgress _ _ _ _ | LogInfo _ | LogWarn _ | Confirm _ _ => false
  end.

(** The exception the call recorded by the event raised, if it raised. *)
Definition error_of (ev : event) : option exn :=
  let err {A : Type} (r : result A) : option exn :=
    match r with Ok _ => None | Raise e => Some e end in
  match ev with
  | GetDataDirectory r => err r
  | ListFiles _ r => err r
  | DownloadFile _ _ r => err r
  | Mkdir _ r => err r
  | WriteFile _ _ r => err r
  | ZipOpen _ r => err r
  | ZipRead _ r => err r
  | Decode _ r => err r
  | Parse _ r => err r
  | TradableDates r => err r
  | DataFilesInRange _ _ r => err r
  | LogProgress _ _ _ _ | LogInfo _ | LogWarn _ | Confirm _ _ => None
  end.

(** Reading, decoding and parsing one entry of the archive. *)
Definition is_entry_event (ev : event) : bool :=
  match ev with ZipRead _ _ | Decode _ _ | Parse _ _ => true | _ => false end.

Definition count (p : event -> bool) (evs : list event) : nat :=
  length (filter p evs).

End Traces.

Section TraceOfStates.

Context {MapFile Price FS : Type}.

(** [extends st st'] : [st'] is [st] after some more events. *)
Definition extends (st st' : state MapFile Price FS) : Prop :=
  trace st' = (trace st ++ issued st st')%list.

End TraceOfStates.

(* ================================================================== *)
(** ** The overwrite decision of the specification *)

(** The three states of section 4.3; [self._force_overwrite] holds them as
    [None], [True] and [False]. *)
Inductive OverwriteDecision : Type := Undecided | Allow | Deny.

Definition decision (v : option bool) : OverwriteDecision :=
  match v with
  | None => Undecided
  | Some true => Allow
  | Some false => Deny
  end.

Definition decide_by (answer : bool) : OverwriteDecision :=
  if answer then Allow else Deny.

(* ================================================================== *)
(** ** A small concrete world, to run the methods on *)

Module Demo.

(** A disk that holds regular files only; directories are implicit. *)
Definition MemFS : Type := list (Path * bytes).

Fixpoint lookup (d : MemFS) (p : Path) : option bytes :=
  match d with
  | [] => None
  | (q, content) :: rest => if String.eqb p q then Some content else lookup rest p
  end.

Definition present (d : MemFS) (p : Path) : bool :=
  match lookup d p with
  | Some _ => true
  | None => false
  end.

(** The text before the last "/" of a path, if it has one. *)
Fixpoint before_last_slash (s : string) : option string :=
  match s with
  | EmptyString => None
  | String c s' =>
      match before_last_slash s' with
      | Some d => Some (String c d)
      | None => if Ascii.eqb c "/"%char then Some EmptyString else None
      end
  end.

Definition dirname (p : Path) : Path :=
  match before_last_slash p with
  | Some d => d
  | None => "."
  end.

(** Every stored file reads as an archive with the one entry [entry_name],
    whose content is the file's. *)
Definition entry_name : string := "map_files.csv".

Definition open_archive (d : MemFS) (p : Path) : result zip_archive :=
  match lookup d p with
  | Some content =>
      Ok {| filelist := [entry_name]; zip_read := fun _ => Ok content |}
  | None => Raise (OtherError "FileNotFoundError")
  end.

Definition open_archive_present (d : MemFS) (p : Path) :
  present d p = false -> is_ok (open_archive d p) = false :=
  match lookup d p as o
    return (match o with Some _ => true | None => false end = false ->
            is_ok (match o with
                   | Some content =>
                       Ok {| filelist := [entry_name];
                             zip_read := fun _ => Ok content |}
                   | None => Raise (OtherError "FileNotFoundError")
                   end) = false)
  with
  | Some _ => fun E => E
  | None => fun _ => eq_refl
  end.

#[global] Instance mem_fs : FileSystem MemFS := {|
  path_join := fun d r => d ++ "/" ++ r;
  path_parent := dirname;
  fs_exists := present;
  fs_is_file := present;
  fs_mkdir := fun d _ => (Ok tt, d);
  fs_write := fun d p content => (Ok tt, (p, content) :: d);
  fs_zip_open := open_archive;
  fs_zip_open_is_file := open_archive_present
|}.

(** Map files are kept as their text, prices are whole numbers. *)
Definition world (listing : result (list string))
    (fetch : string -> result bytes) (answer : bool)
    (dates : result (list string)) : Env string nat := {|
  get_data_directory := fun _ => Ok "data";
  api_list_files := fun _ _ => listing;
  api_download_file := fun _ f _ => fetch f;
  click_confirm := fun _ _ => answer;
  decode_utf8 := fun raw => Ok (string_of_list_byte raw);
  MapFile_parse := fun text => Ok text;
  re_search := fun pattern text => PyStr.endswith text ".zip";
  tradable_dates := fun _ _ => dates;
  data_files_in_range := fun _ _ _ _ => Ok []
|}.

Definition hello : bytes := list_byte_of_string "hello".

Definition old : bytes := list_byte_of_string "old".

Definition fresh (d : MemFS) : state string nat MemFS := __init__ d [].

(** Three files of a batch; the second is missing from the library and the
    fetch of the third breaks. *)
Definition file_x : data_file nat := {| file := "a/x.zip"; vendor_price := 5 |}.

Definition file_y : data_file nat := {| file := "a/y.zip"; vendor_price := 0 |}.

Definition file_z : data_file nat := {| file := "a/z.zip"; vendor_price := 7 |}.

Definition file_w : data_file nat := {| file := "a/w.zip"; vendor_price := 2 |}.

Definition library (f : string) : result bytes :=
  if String.eqb f "a/y.zip"
  then Raise (RequestFailedError "GET request failed: File not found")
  else if String.eqb f "a/z.zip"
       then Raise (RequestFailedError "GET request failed: Internal error")
       else Ok hello.

(** A user who declines, and one who accepts. *)
Definition declining : Env string nat :=
  world (Ok ["b.zip"; "a.zip"; "readme.txt"]) library false (Ok []).

Definition accepting : Env string nat :=
  world (Ok ["b.zip"; "a.zip"; "readme.txt"]) library true (Ok []).

(** A library whose map-file bundle is gone, and one without any bundle. *)
Definition bundle_gone : Env string nat :=
  world (Ok ["a/y.zip"]) library false (Ok []).

Definition no_bundle : Env string nat :=
  world (Ok ["readme.txt"]) library false (Ok []).

(** A chains request for SPY over three tradable days. *)
Definition spy_chains : EquityOptionProduct := {|
  _data_type := Chains;
  _market := "USA";
  _ticker := "SPY";
  _resolution := "chains";
  _option_style := None;
  _start_date := Some "20210104";
  _end_date := Some "20210106"
|}.

Definition three_days : list string := ["20210104"; "20210105"; "20210106"].

Definition calendar : Env string nat :=
  world (Ok ["20210104_trade_american.zip"; "notes.txt"]) library false
        (Ok three_days).

(** A disk on which [a/x.zip] is already there. *)
Definition disk_with_x : MemFS := [("data/a/x.zip", old)].

End Demo.

Section Invariants.

Context {MapFile Price FS : Type}.

Local Abbreviation state := (state MapFile Price FS).

(** From [st] to [st'] the overwrite decision was kept if it had been taken,
    and was taken by one confirmation if it was taken at all. *)
Definition keeps_decision (st st' : state) : Prop :=
  extends st st' /\
  match _force_overwrite st, _force_overwrite st' with
  | Some b, after => after = Some b /\ count is_confirm (issued st st') = 0
  | None, None => count is_confirm (issued st st') = 0
  | None, Some b => count is_confirm (issued st st') = 1
  end.

End Invariants.

(** Ascending order of a listing, in Python's order on [str]. *)
Definition str_le_prop (a b : string) : Prop := PyStr.str_le a b = true.

Definition ascending (entries : list string) : Prop := Sorted str_le_prop entries.

(* ================================================================== *)
(** ** More readers of traces *)

Section BatchTraces.

Context {MapFile Price FS : Type} `{FileSystem FS}.

Local Abbreviation event := (event MapFile Price).

Definition is_progress (ev : event) : bool :=
  match ev with LogProgress _ _ _ _ => true | _ => false end.

Definition is_data_directory_lookup (ev : event) : bool :=
  match ev with GetDataDirectory _ => true | _ => false end.

(** The events [_download_file] can add: warnings, the prompt, the fetch and
    the two steps of storing. *)
Definition is_download_event (ev : event) : bool :=
  match ev with
  | LogWarn _ | Confirm _ _ | DownloadFile _ _ _ | Mkdir _ _ | WriteFile _ _ _ =>
      true
  | _ => false
  end.

(** The progress lines of a batch of [total] files from position [index]:
    ["[index + 1/total] Downloading file (price QCC)"] and so on. *)
Fixpoint progress_lines (total index : nat) (data_files : list (data_file Price))
    : list event :=
  match data_files with
  | [] => []
  | df :: rest =>
      LogProgress (index + 1) total (file df) (vendor_price df)
      :: progress_lines total (S index) rest
  end.

(** Every fetch among the events is of one of [files], on the account of
    [organization_id]. *)
Definition fetches_within (files : list string) (organization_id : string)
    (evs : list event) : Prop :=
  Forall (fun ev => match ev with
                    | DownloadFile f o _ => In f files /\ o = organization_id
                    | _ => True
                    end) evs.

(** Every write among the events stores, at [data_dir / file] for one of
    [files], the content a fetch of that file has just returned, after the
    parent directory was made. *)
Definition writes_what_was_fetched (data_dir : Path) (files : list string)
    (organization_id : string) (evs : list event) : Prop :=
  forall before p content w after,
    evs = (before ++ WriteFile p content w :: after)%list ->
    exists earlier f,
      before = (earlier ++ [DownloadFile f organization_id (Ok content);
                            Mkdir (path_parent p) (Ok tt)])%list /\
      p = path_join data_dir f /\ In f files.

End BatchTraces.

Section RunRelations.

Context {MapFile Price FS : Type}.

(** Relations between the states of a run, made of a property of its
    events that holds of no events and of two runs in a row. *)
Definition during (Q : list (event MapFile Price) -> Prop)
    (st st' : state MapFile Price FS) : Prop :=
  extends st st' /\ Q (issued st st').

End RunRelations.

Section ArchiveEntries.

Context {MapFile Price : Type}.

(** [mf] is what parsing the entry [name] of the archive gives:
    [MapFile.parse(zip_file.read(name).decode("utf-8"))]. *)
Definition parsed_entry (env : Env MapFile Price) (z : zip_archive)
    (name : string) (mf : MapFile) : Prop :=
  exists raw text,
    zip_read z name = Ok raw /\
    decode_utf8 env raw = Ok text /\
    MapFile_parse env text = Ok mf.

(** A fetch on the account of [organization_id], or no fetch. *)
Definition billed_to (organization_id : string) (ev : event MapFile Price)
    : Prop :=
  match ev with
  | DownloadFile _ o _ => o = organization_id
  | _ => True
  end.

End ArchiveEntries.

Section FailedSteps.

Context {MapFile Price : Type}.

(** A fetch answered with the request error "File not found", the one
    failure the handler of [_download_file] absorbs with a warning. *)
Definition absorbed_fetch (ev : event MapFile Price) : bool :=
  match ev with
  | DownloadFile _ _ (Raise e) => file_not_found e
  | _ => false
  end.

End FailedSteps.

(* ================================================================== *)
(** ** [EquityOptionProduct.build] *)

(** [option_style.value] *)
Definition option_style_value (s : OptionStyle) : string :=
  match s with
  | American => "American"
  | European => "European"
  end.

Section Build.

Context {MapFile Price FS : Type} `{FileSystem FS}.

Local Abbreviation M := (M MapFile Price FS).

(** The interactive helpers [build] calls, which the class inherits or takes
    from the container.  Each may do and answer anything, or raise. *)
Record Prompts {SecurityType : Type} : Type := {
  _ask_data_type : list DataType -> M DataType;
      (* cls._ask_data_type(data_types) *)
  prompt_list : string -> list (OptionStyle * string) -> M OptionStyle;
      (* container.logger().prompt_list(text, [Option(id, label), ...]),
         which answers the id of the option chosen *)
  _ask_ticker : SecurityType -> string -> string -> (string -> M bool) -> M string;
      (* cls._ask_ticker(security_type, market, resolution, validate_ticker) *)
  _list_dates : string -> string -> M (list string);
      (* cls._list_dates(prefix, pattern) *)
  _ask_start_end_date : option (list string) -> M (option string * option string)
      (* cls._ask_start_end_date(dates) *)
}.

Variable env : Env MapFile Price.
Context {SecurityType Organization : Type}.
Variable EquityOption : SecurityType.       (* SecurityType.EquityOption *)
Variable QCResolution_Minute : string.      (* QCResolution.Minute *)
Variable prompts : @Prompts SecurityType.

(** [OptionStyle.__members__.values()] *)
Definition option_style_members : list OptionStyle := [American; European].

Definition build (organization : Organization) : M (list EquityOptionProduct) :=
  data_type <- _ask_data_type prompts [Trade; Quote; OpenInterest; Chains] ;;
  let market := build_market in
  let resolution := if DataTypeEnum.is_chains data_type
                    then "chains" else QCResolution_Minute in
  option_style <-
    (if negb (DataTypeEnum.is_chains data_type)
     then style <- prompt_list prompts "Select the option style of the data"
                     (map (fun s => (s, option_style_value s))
                          option_style_members) ;;
          ret (Some style)
     else ret None) ;;
  let base := base_directory market data_type in
  ticker <- _ask_ticker prompts EquityOption market resolution
              (validate_ticker env data_type option_style) ;;
  dates <-
    (if negb (DataTypeEnum.is_chains data_type)
     then let prefix := base ++ "/" ++ PyStr.lower ticker ++ "/" in
          style_name <- option_style_name option_style ;;
          found <- _list_dates prompts prefix (date_pattern data_type style_name) ;;
          ret (Some found)
     else ret None) ;;
  bounds <- _ask_start_end_date prompts dates ;;
  ret [ {| _data_type := data_type;
           _market := market;
           _ticker := ticker;
           _resolution := resolution;
           _option_style := option_style;
           _start_date := fst bounds;
           _end_date := snd bounds |} ].

End Build.

(** A product is well formed when its option style is missing exactly for
    chains data. *)
Definition style_fits_kind (p : EquityOptionProduct) : Prop :=
  match _data_type p, _option_style p with
  | Chains, None => True
  | Chains, Some _ => False
  | _, Some _ => True
  | _, None => False
  end.

(* ================================================================== *)
(** ** More sample worlds *)

Module Sample.

Definition M : Type -> Type := M string nat Demo.MemFS.

(** A user who picks [kind], the first option style offered and the ticker
    SPY, and gives no date bounds. *)
Definition user (kind : DataType) : @Prompts string nat Demo.MemFS unit := {|
  _ask_data_type := fun _ => ret kind;
  prompt_list := fun _ options =>
    match options with
    | (style, _) :: _ => ret style
    | [] => raise (OtherError "nothing to choose from")
    end;
  _ask_ticker := fun _ _ _ validate =>
    known <- validate "SPY" ;;
    if known then ret "SPY" else raise (OtherError "unknown ticker");
  _list_dates := fun _ _ => ret ["20210104"; "20210105"];
  _ask_start_end_date := fun _ => ret (None, None)
|}.

(** A trade request for SPY. *)
Definition spy_trades : EquityOptionProduct := {|
  _data_type := Trade;
  _market := "USA";
  _ticker := "SPY";
  _resolution := "Minute";
  _option_style := Some American;
  _start_date := None;
  _end_date := None
|}.

(** A disk that holds the map-file bundle a.zip already. *)
Definition disk_with_bundle : Demo.MemFS := [("data/a.zip", Demo.hello)].

(** A disk on which both files of the batch are already there. *)
Definition disk_with_both : Demo.MemFS :=
  [("data/a/x.zip", Demo.old); ("data/a/w.zip", Demo.old)].

(** An instance that has been told to overwrite. *)
Definition allowed : state string nat Demo.MemFS :=
  set_force_overwrite (Some true) (Demo.fresh Demo.disk_with_x).

End Sample.

(* ================================================================== *)
(** * Properties *)

(* ------------------------------------------------------------------ *)
(** *** The helpers mean what their Python originals mean *)

Lemma endswith_nil (suf : string) :
  PyStr.endswith "" suf = String.eqb "" suf.
Proof. unfold PyStr.endswith. now destruct (String.eqb "" suf). Qed.

Lemma endswith_cons (c : ascii) (s suf : string) :
  PyStr.endswith (String c s) suf
  = String.eqb (String c s) suf || PyStr.endswith s suf.
Proof. reflexivity. Qed.

Lemma endswith_iff (s suf : string) :
  PyStr.endswith s suf = true <-> exists p, s = p ++ suf.
Proof.
  induction s as [|c s IH].
  - rewrite endswith_nil, String.eqb_eq. split.
    + intros <-. now exists "".
    + intros [p Hp]. destruct p; simpl in Hp; [congruence | discriminate].
  - rewrite endswith_cons, orb_true_iff, String.eqb_eq, IH. split.
    + intros [<- | [p ->]]; [now exists "" | now exists (String c p)].
    + intros [[|d p] Hp]; simpl in Hp.
      * now left.
      * right. injection Hp as _ Hp. now exists p.
Qed.

Lemma prefix_iff (a b : string) :
  String.prefix a b = true <-> exists r, b = a ++ r.
Proof.
  revert b. induction a as [|c a IH]; intros b; simpl.
  - split; [intros _; now exists b | now destruct b].
  - destruct b as [|d b].
    + split; [discriminate | intros [r Hr]; discriminate].
    + simpl. destruct (Ascii.ascii_dec c d) as [->|N].
      * rewrite IH. split; intros [r Hr]; exists r.
        -- now rewrite Hr.
        -- now injection Hr.
      * split; [discriminate|]. intros [r Hr]. injection Hr as E _. congruence.
Qed.

Lemma contains_nil (needle : string) :
  PyStr.contains needle "" = String.prefix needle "".
Proof. unfold PyStr.contains. now destruct (String.prefix needle ""). Qed.

Lemma contains_cons (needle : string) (c : ascii) (hay : string) :
  PyStr.contains needle (String c hay)
  = String.prefix needle (String c hay) || PyStr.contains needle hay.
Proof. reflexivity. Qed.

Lemma contains_iff (needle hay : string) :
  PyStr.contains needle hay = true <-> exists a b, hay = a ++ needle ++ b.
Proof.
  induction hay as [|c hay IH].
  - rewrite contains_nil, prefix_iff. split.
    + intros [r Hr]. now exists "", r.
    + intros (a & b & H). destruct a; simpl in H; [now exists b | discriminate].
  - rewrite contains_cons, orb_true_iff, prefix_iff, IH. split.
    + intros [[r Hr] | (a & b & ->)]; [now exists "", r | now exists (String c a), b].
    + intros ([|d a] & b & H); simpl in H.
      * left. now exists b.
      * right. injection H as _ H. now exists a, b.
Qed.

(* ------------------------------------------------------------------ *)
(** *** Traces *)

Section TraceLemmas.

Context {MapFile Price FS : Type}.

Local Abbreviation event := (event MapFile Price).
Local Abbreviation state := (state MapFile Price FS).

Lemma count_app (p : event -> bool) (a b : list event) :
  count p (a ++ b)%list = count p a + count p b.
Proof. unfold count. now rewrite filter_app, length_app. Qed.

Lemma count_zero_iff (p : event -> bool) (evs : list event) :
  count p evs = 0 <-> Forall (fun ev => p ev = false) evs.
Proof.
  unfold count. induction evs as [|ev evs IH]; simpl.
  - split; [constructor | reflexivity].
  - destruct (p ev) eqn:E; simpl.
    + split; [discriminate | intros F; inversion F; congruence].
    + rewrite IH. split; [now constructor | intros F; now inversion F].
Qed.

Lemma issued_app (st st' : state) (evs : list event) :
  trace st' = (trace st ++ evs)%list -> issued st st' = evs.
Proof.
  unfold issued. intros ->.
  rewrite skipn_app, skipn_all, Nat.sub_diag. reflexivity.
Qed.

Lemma issued_refl (st : state) : issued st st = [].
Proof. apply issued_app. now rewrite app_nil_r. Qed.

Lemma extends_intro (st st' : state) (evs : list event) :
  trace st' = (trace st ++ evs)%list -> extends st st'.
Proof. intros E. unfold extends. now rewrite (issued_app _ _ _ E). Qed.

Lemma extends_refl (st : state) : extends st st.
Proof. apply (extends_intro _ _ []). now rewrite app_nil_r. Qed.

Lemma issued_trans (a b c : state) :
  extends a b -> extends b c -> issued a c = (issued a b ++ issued b c)%list.
Proof.
  unfold extends. intros E1 E2. apply issued_app.
  rewrite E2, E1 at 1. now rewrite app_assoc.
Qed.

Lemma extends_trans (a b c : state) : extends a b -> extends b c -> extends a c.
Proof.
  intros E1 E2. apply (extends_intro _ _ (issued a b ++ issued b c)).
  unfold extends in *. rewrite E2, E1 at 1. now rewrite app_assoc.
Qed.

Lemma extends_add_event (ev : event) (st : state) :
  extends st (add_event ev st).
Proof. now apply (extends_intro _ _ [ev]). Qed.

Lemma issued_add_event (ev : event) (st : state) :
  issued st (add_event ev st) = [ev].
Proof. now apply issued_app. Qed.

End TraceLemmas.

(* ------------------------------------------------------------------ *)
(** *** Symbolic execution *)

Ltac unfold_methods :=
  unfold download_map_files, download_files, _download_file, _should_overwrite,
    validate_ticker, _get_data_files, _list_files, _get_tradable_dates,
    _get_data_files_in_range, option_style_name,
    lean_config_get_data_directory, list_files, download_file, path_exists,
    path_is_file, mkdir, write_file, open_zip, read_zip, decode, parse,
    logger_warn, logger_info, emit, confirm,
    bind, ret, raise, try, lift, gets, modify, call.

Ltac st_simpl :=
  cbn [fst snd disk trace _force_overwrite _map_files_cache add_event
       set_disk set_force_overwrite set_map_files_cache orb andb negb truthy
       app is_ok file vendor_price file_not_found failed
       count filter length existsb is_confirm is_fetch is_disk_write
       is_listing is_archive_access is_range_or_probe is_entry_event error_of
       decision decide_by]
    in *.

Ltac run := unfold_methods; st_simpl.

Ltac issued_simp :=
  repeat (erewrite issued_app by (st_simpl; rewrite <- ?app_assoc; reflexivity));
  st_simpl.

Ltac has_branch x :=
  match x with
  | context [match _ with _ => _ end] => idtac
  end.

(** Case analysis on an innermost scrutinee of the goal. *)
Ltac branch :=
  match goal with
  | |- context [match ?x with _ => _ end] =>
      tryif has_branch x then fail else destruct x eqn:?
  end.

Ltac branches := repeat (branch; st_simpl).

(** From [R : m st = (r, s)], with the methods of [m] unfolded, every path
    through [m]; the path's outcome replaces [r] and [s]. *)
Ltac paths R :=
  revert R;
  match goal with
  | |- _ -> ?C =>
      let P := fresh "P" in
      set (P := C); unfold_methods; st_simpl; branches; subst P;
      intros R; injection R as ? ?; try discriminate; subst; st_simpl
  end.

(** From [explicit list = front ++ x :: back], every way to cut the list. *)
Ltac cut_list E front :=
  repeat (destruct front as [|? front]; st_simpl;
          [ try discriminate E;
            try (injection E as E; try discriminate E) | ];
          try discriminate E;
          try (injection E as ? E)).

(* ------------------------------------------------------------------ *)
(** *** The overwrite policy *)

Section OverwritePolicy.

Context {MapFile Price FS : Type} `{FileSystem FS}.
Variable env : Env MapFile Price.

Local Abbreviation state := (state MapFile Price FS).

(** C3.  [_should_overwrite] is the state machine of section 4.3.  With the
    flag set, or the decision already [Allow], it permits and touches nothing
    (so it does not prompt).  With the decision already [Deny] it denies,
    without a prompt, after the two warnings, the second being the no-charge
    one.  With the decision [Undecided] it asks once, stores the answer as
    the decision and returns it. *)
Theorem should_overwrite_state_machine
    (overwrite_flag : bool) (path : Path) (st : state) :
  let (r, st') := _should_overwrite env overwrite_flag path st in
  disk st' = disk st /\ _map_files_cache st' = _map_files_cache st /\
  if overwrite_flag then r = Ok true /\ st' = st
  else
    match decision (_force_overwrite st) with
    | Allow => r = Ok true /\ st' = st
    | Deny =>
        r = Ok false /\
        decision (_force_overwrite st') = Deny /\
        issued st st' = [LogWarn (already_exists_msg path);
                         LogWarn not_billed_msg]
    | Undecided =>
        let asked := (trace st ++ [LogWarn (already_exists_msg path)])%list in
        let answer := click_confirm env asked confirm_prompt in
        r = Ok answer /\
        decision (_force_overwrite st') = decide_by answer /\
        count is_confirm (issued st st') = 1 /\
        issued st st' =
          ([LogWarn (already_exists_msg path); Confirm confirm_prompt answer]
           ++ (if answer then [] else [LogWarn not_billed_msg]))%list
    end.
Proof.
  destruct st as [force cache d t].
  destruct overwrite_flag; [run; auto|].
  destruct force as [[|]|]; run; auto.
  - repeat split; auto. now issued_simp.
  - destruct (click_confirm env _ _); cbn; repeat split; auto; now issued_simp.
Qed.

End OverwritePolicy.

(* ------------------------------------------------------------------ *)
(** *** Downloading the files of a batch *)

Section Batch.

Context {MapFile Price FS : Type} `{FileSystem FS}.
Variable env : Env MapFile Price.

Local Abbreviation state := (state MapFile Price FS).
Local Abbreviation event := (event MapFile Price).

(** C4.  A file of the batch that exists on disk at [data_dir / file] and
    whose overwrite the policy denies is skipped: nothing is fetched, nothing
    is written, the disk is what it was, and the loop goes on with the rest
    of the batch. *)
Theorem skip_when_denied
    (total index : nat) (df : data_file Price) (rest : list (data_file Price))
    (overwrite_flag : bool) (data_dir : Path) (organization_id : string)
    (st : state) :
  let local_path := path_join data_dir (file df) in
  let st0 := add_event (LogProgress (index + 1) total (file df) (vendor_price df)) st in
  let verdict := _should_overwrite env overwrite_flag local_path st0 in
  fs_exists (disk st) local_path = true ->
  fst verdict = Ok false ->
  _download_file env (file df) overwrite_flag data_dir organization_id st0
    = (Ok tt, snd verdict) /\
  disk (snd verdict) = disk st /\
  count is_fetch (issued st (snd verdict)) = 0 /\
  count is_disk_write (issued st (snd verdict)) = 0 /\
  download_loop env total index (df :: rest) overwrite_flag data_dir
                organization_id st
    = download_loop env total (S index) rest overwrite_flag data_dir
                    organization_id (snd verdict).
Proof.
  intros local_path st0 verdict Hex Hdeny.
  assert (E : _download_file env (file df) overwrite_flag data_dir
                organization_id st0 = (Ok tt, snd verdict)).
  { subst verdict st0 local_path. destruct st as [force cache d t].
    cbn in Hex. revert Hdeny. run. rewrite Hex. cbn.
    destruct overwrite_flag; cbn; [discriminate|].
    destruct force as [[|]|]; cbn; try discriminate; [reflexivity|].
    destruct (click_confirm env _ _); cbn; [discriminate | reflexivity]. }
  split; [exact E|].
  assert (D : disk (snd verdict) = disk st /\
              count is_fetch (issued st (snd verdict)) = 0 /\
              count is_disk_write (issued st (snd verdict)) = 0).
  { subst verdict st0 local_path. destruct st as [force cache d t].
    clear E. revert Hdeny. run.
    destruct overwrite_flag; cbn; [discriminate|].
    destruct force as [[|]|]; cbn; try discriminate.
    - intros _. now issued_simp.
    - destruct (click_confirm env _ _); cbn; [discriminate|].
      intros _. now issued_simp. }
  destruct D as (D1 & D2 & D3). repeat split; auto.
  cbn [download_loop]. unfold bind at 1. unfold emit, modify.
  fold st0. unfold bind at 1. rewrite E. reflexivity.
Qed.

(** C2.  When the fetch of a file of the batch fails, the disk is left as it
    was and neither a directory is made nor a file written.  If the failure
    is the "File not found" request failure, the not-billed warning follows
    and the loop goes on with the rest of the batch; any other failure is
    the outcome of the whole loop, which stops at the failed fetch. *)
Theorem fetch_failure_handling
    (total index : nat) (df : data_file Price) (rest : list (data_file Price))
    (overwrite_flag : bool) (data_dir : Path) (organization_id : string)
    (st : state) (before after : list event) (f o : string) (e : exn) :
  let st0 := add_event (LogProgress (index + 1) total (file df) (vendor_price df)) st in
  let st1 := snd (_download_file env (file df) overwrite_flag data_dir
                                 organization_id st0) in
  issued st0 st1 = (before ++ DownloadFile f o (Raise e) :: after)%list ->
  f = file df /\ o = organization_id /\
  disk st1 = disk st /\
  count is_disk_write (issued st0 st1) = 0 /\
  if file_not_found e
  then after = [LogWarn (not_found_msg (file df))] /\
       download_loop env total index (df :: rest) overwrite_flag data_dir
                     organization_id st
       = download_loop env total (S index) rest overwrite_flag data_dir
                       organization_id st1
  else after = [] /\
       download_loop env total index (df :: rest) overwrite_flag data_dir
                     organization_id st
       = (Raise e, st1).
Proof.
  intros st0 st1.
  assert (L : download_loop env total index (df :: rest) overwrite_flag
                data_dir organization_id st
              = match _download_file env (file df) overwrite_flag data_dir
                        organization_id st0 with
                | (Ok _, s) => download_loop env total (S index) rest
                                 overwrite_flag data_dir organization_id s
                | (Raise x, s) => (Raise x, s)
                end) by reflexivity.
  rewrite L. clear L. subst st1.
  destruct (_download_file env (file df) overwrite_flag data_dir organization_id st0)
    as [r s1] eqn:R.
  cbn [snd]. subst st0. destruct st as [force cache d t].
  paths R.
  all: issued_simp.
  all: intros E; cut_list E before.
  all: subst; st_simpl.
  all: repeat match goal with
              | H : ?c = _ |- context [if ?c then _ else _] => rewrite H
              end.
  all: auto 10.
Qed.

End Batch.


Lemma skip_when_denied_witness :
  let st := Demo.fresh Demo.disk_with_x in
  let st0 := add_event (LogProgress 1 2 "a/x.zip" 5) st in
  let st1 := snd (_should_overwrite Demo.declining false "data/a/x.zip" st0) in
  _download_file Demo.declining "a/x.zip" false "data" "org" st0 = (Ok tt, st1) /\
  disk st1 = Demo.disk_with_x /\
  count is_fetch (issued st st1) = 0 /\
  count is_disk_write (issued st st1) = 0 /\
  download_loop Demo.declining 2 0 [Demo.file_x; Demo.file_y] false "data" "org" st
  = download_loop Demo.declining 2 1 [Demo.file_y] false "data" "org" st1.
Proof.
  pose proof (skip_when_denied Demo.declining 2 0 Demo.file_x [Demo.file_y]
                false "data" "org" (Demo.fresh Demo.disk_with_x)) as W.
  assert (There : fs_exists (disk (Demo.fresh Demo.disk_with_x))
                    (path_join "data" (file Demo.file_x)) = true)
    by (vm_compute; reflexivity).
  assert (Denied : fst (_should_overwrite Demo.declining false
                          (path_join "data" (file Demo.file_x))
                          (add_event (LogProgress (0 + 1) 2 (file Demo.file_x)
                                        (vendor_price Demo.file_x))
                             (Demo.fresh Demo.disk_with_x))) = Ok false)
    by (vm_compute; reflexivity).
  exact (W There Denied).
Defined.

Lemma fetch_failure_handling_witness :
  let st := Demo.fresh [] in
  let st0 := add_event (LogProgress 1 2 "a/y.zip" 0) st in
  let st1 := snd (_download_file Demo.declining "a/y.zip" false "data" "org" st0) in
  disk st1 = [] /\
  download_loop Demo.declining 2 0 [Demo.file_y; Demo.file_x] false "data" "org" st
  = download_loop Demo.declining 2 1 [Demo.file_x] false "data" "org" st1.
Proof.
  pose proof (fetch_failure_handling Demo.declining 2 0 Demo.file_y [Demo.file_x]
                false "data" "org" (Demo.fresh []) []
                [LogWarn (not_found_msg "a/y.zip")] "a/y.zip" "org"
                (RequestFailedError "GET request failed: File not found")) as W.
  assert (Failed :
            issued (add_event (LogProgress (0 + 1) 2 (file Demo.file_y)
                                 (vendor_price Demo.file_y)) (Demo.fresh []))
              (snd (_download_file Demo.declining (file Demo.file_y) false "data"
                      "org"
                      (add_event (LogProgress (0 + 1) 2 (file Demo.file_y)
                                    (vendor_price Demo.file_y)) (Demo.fresh []))))
            = ([] ++ DownloadFile "a/y.zip" "org"
                       (Raise (RequestFailedError
                                 "GET request failed: File not found"))
                  :: [LogWarn (not_found_msg "a/y.zip")])%list)
    by (vm_compute; reflexivity).
  destruct (W Failed) as (_ & _ & Disk & _ & Then).
  split; [exact Disk | exact (proj2 Then)].
Defined.

(** [download_files] is the data-directory lookup followed by the loop. *)
Lemma download_files_unfold {MapFile Price FS : Type} `{FileSystem FS}
    (env : Env MapFile Price) (data_files : list (data_file Price))
    (overwrite_flag : bool) (organization_id : string)
    (st : state MapFile Price FS) :
  download_files env data_files overwrite_flag organization_id st
  = let answer := get_data_directory env (trace st) in
    let st0 := add_event (GetDataDirectory answer) st in
    match answer with
    | Ok data_dir =>
        download_loop env (length data_files) 0 data_files overwrite_flag
                      data_dir organization_id st0
    | Raise e => (Raise e, st0)
    end.
Proof.
  unfold download_files, bind, lean_config_get_data_directory, call.
  now destruct (get_data_directory env (trace st)).
Qed.

(** The loop over a batch in two parts: the second part runs only if the
    first one ended without an exception. *)
Lemma download_loop_app {MapFile Price FS : Type} `{FileSystem FS}
    (env : Env MapFile Price) (total : nat)
    (first second : list (data_file Price)) (index : nat)
    (overwrite_flag : bool) (data_dir : Path) (organization_id : string)
    (st : state MapFile Price FS) :
  download_loop env total index (first ++ second)%list overwrite_flag data_dir
                organization_id st
  = match download_loop env total index first overwrite_flag data_dir
            organization_id st with
    | (Ok _, s) =>
        download_loop env total (index + length first) second overwrite_flag
                      data_dir organization_id s
    | (Raise e, s) => (Raise e, s)
    end.
Proof.
  revert index st. induction first as [|df rest IH]; intros index st.
  - cbn. now rewrite Nat.add_0_r.
  - cbn [app download_loop length].
    set (step := _download_file env (file df) overwrite_flag data_dir
                   organization_id).
    unfold bind, emit, modify.
    destruct (step _) as [[[]|e] s]; [|reflexivity].
    rewrite IH. now rewrite Nat.add_succ_r.
Qed.

(** A batch of three whose second file is not in the library: the file is
    skipped after the not-billed warning, nothing is written for it, and the
    two others are downloaded. *)
Example three_files_second_not_found :
  let (r, st') := download_files Demo.declining
                    [Demo.file_x; Demo.file_y; Demo.file_w] false "org"
                    (Demo.fresh []) in
  r = Ok tt /\
  map fst (disk st') = ["data/a/w.zip"; "data/a/x.zip"] /\
  issued (Demo.fresh []) st' =
    [GetDataDirectory (Ok "data");
     LogProgress 1 3 "a/x.zip" 5;
     DownloadFile "a/x.zip" "org" (Ok Demo.hello);
     Mkdir "data/a" (Ok tt);
     WriteFile "data/a/x.zip" Demo.hello (Ok tt);
     LogProgress 2 3 "a/y.zip" 0;
     DownloadFile "a/y.zip" "org"
       (Raise (RequestFailedError "GET request failed: File not found"));
     LogWarn (not_found_msg "a/y.zip");
     LogProgress 3 3 "a/w.zip" 2;
     DownloadFile "a/w.zip" "org" (Ok Demo.hello);
     Mkdir "data/a" (Ok tt);
     WriteFile "data/a/w.zip" Demo.hello (Ok tt)].
Proof. vm_compute. repeat split; reflexivity. Qed.

(** A batch of three whose second fetch breaks otherwise: the failure is the
    outcome of the call and the third file is never reached. *)
Example three_files_second_breaks :
  let (r, st') := download_files Demo.declining
                    [Demo.file_x; Demo.file_z; Demo.file_w] false "org"
                    (Demo.fresh []) in
  r = Raise (RequestFailedError "GET request failed: Internal error") /\
  map fst (disk st') = ["data/a/x.zip"] /\
  issued (Demo.fresh []) st' =
    [GetDataDirectory (Ok "data");
     LogProgress 1 3 "a/x.zip" 5;
     DownloadFile "a/x.zip" "org" (Ok Demo.hello);
     Mkdir "data/a" (Ok tt);
     WriteFile "data/a/x.zip" Demo.hello (Ok tt);
     LogProgress 2 3 "a/z.zip" 7;
     DownloadFile "a/z.zip" "org"
       (Raise (RequestFailedError "GET request failed: Internal error"))].
Proof. vm_compute. repeat split; reflexivity. Qed.

(** A declined overwrite: one prompt for the first conflict, none for the
    second, and neither file is fetched. *)
Example declined_once_skips_all :
  let disk0 := [("data/a/x.zip", Demo.old); ("data/a/w.zip", Demo.old)] in
  let (r, st') := download_files Demo.declining [Demo.file_x; Demo.file_w]
                    false "org" (Demo.fresh disk0) in
  r = Ok tt /\ disk st' = disk0 /\
  count is_confirm (trace st') = 1 /\ count is_fetch (trace st') = 0.
Proof. vm_compute. repeat split; reflexivity. Qed.

(* ------------------------------------------------------------------ *)
(** *** The life of the overwrite decision *)

Section DecisionLife.

Context {MapFile Price FS : Type} `{FileSystem FS}.
Variable env : Env MapFile Price.

Local Abbreviation state := (state MapFile Price FS).
Local Abbreviation event := (event MapFile Price).

Lemma keeps_decision_refl (st : state) : keeps_decision st st.
Proof.
  split; [apply extends_refl|].
  rewrite issued_refl. destruct (_force_overwrite st); auto.
Qed.

Lemma keeps_decision_trans (a b c : state) :
  keeps_decision a b -> keeps_decision b c -> keeps_decision a c.
Proof.
  intros [E1 K1] [E2 K2]. split; [eapply extends_trans; eauto|].
  rewrite (issued_trans a b c E1 E2), count_app.
  destruct (_force_overwrite a), (_force_overwrite b), (_force_overwrite c);
    intuition (try congruence; try lia).
Qed.

Lemma keeps_decision_add_event (ev : event) (st : state) :
  is_confirm ev = false -> keeps_decision st (add_event ev st).
Proof.
  intros N. split; [apply extends_add_event|].
  rewrite issued_add_event. cbn [add_event _force_overwrite].
  unfold count. cbn [filter]. rewrite N.
  destruct (_force_overwrite st); auto.
Qed.

Ltac keeps_decision_leaf :=
  split;
  [ eapply extends_intro; st_simpl; rewrite <- ?app_assoc; reflexivity
  | issued_simp; auto ].

Lemma download_file_keeps_decision
    (relative_file : string) (overwrite_flag : bool) (data_directory : Path)
    (organization_id : string) (st : state) :
  keeps_decision st
    (snd (_download_file env relative_file overwrite_flag data_directory
                         organization_id st)).
Proof.
  destruct (_download_file env relative_file overwrite_flag data_directory
                           organization_id st) as [r s1] eqn:R.
  cbn [snd]. destruct st as [force cache d t].
  paths R; unfold keeps_decision; st_simpl;
    try (destruct force as [[|]|]; st_simpl); try discriminate;
    keeps_decision_leaf.
Qed.

Lemma download_loop_keeps_decision
    (total : nat) (data_files : list (data_file Price)) (index : nat)
    (overwrite_flag : bool) (data_dir : Path) (organization_id : string)
    (st : state) :
  keeps_decision st
    (snd (download_loop env total index data_files overwrite_flag data_dir
                        organization_id st)).
Proof.
  revert index st. induction data_files as [|df rest IH]; intros index st.
  - apply keeps_decision_refl.
  - cbn [download_loop]. unfold bind at 1. unfold emit, modify.
    set (st0 := add_event _ st).
    assert (K0 : keeps_decision st st0) by now apply keeps_decision_add_event.
    unfold bind at 1.
    pose proof (download_file_keeps_decision (file df) overwrite_flag data_dir
                  organization_id st0) as K1.
    destruct (_download_file env (file df) overwrite_flag data_dir
                organization_id st0) as [[[]|e] s1]; cbn [snd] in *.
    + eapply keeps_decision_trans; [|apply IH].
      eapply keeps_decision_trans; eauto.
    + eapply keeps_decision_trans; eauto.
Qed.

Lemma download_files_keeps_decision
    (data_files : list (data_file Price)) (overwrite_flag : bool)
    (organization_id : string) (st : state) :
  keeps_decision st
    (snd (download_files env data_files overwrite_flag organization_id st)).
Proof.
  unfold download_files, bind at 1.
  unfold lean_config_get_data_directory, call.
  set (st0 := add_event _ st).
  assert (K0 : keeps_decision st st0) by now apply keeps_decision_add_event.
  destruct (get_data_directory env (trace st)) as [dir|e]; cbn [snd].
  - eapply keeps_decision_trans; [exact K0|apply download_loop_keeps_decision].
  - exact K0.
Qed.

(** C1, as the code has it.  The decision belongs to the [DataDownloader]
    instance, not to one call of [download_files]: it is [Undecided] when the
    instance is made, and [download_files] never resets it.  A call that
    starts with the decision taken ends with the same decision and asks
    nothing, and a conflict met after it is settled by that decision; a call
    that starts [Undecided] asks at most once, and ends [Undecided] exactly
    when it did not ask. *)
Theorem overwrite_decision_lives_with_the_instance
    (d : FS) (t : list event) (data_files : list (data_file Price))
    (overwrite_flag : bool) (organization_id : string) (path : Path)
    (st : state) :
  decision (_force_overwrite (__init__ (MapFile := MapFile) d t)) = Undecided /\
  let st' := snd (download_files env data_files overwrite_flag organization_id st) in
  match decision (_force_overwrite st) with
  | Undecided =>
      count is_confirm (issued st st') <= 1 /\
      (decision (_force_overwrite st') = Undecided
       <-> count is_confirm (issued st st') = 0)
  | Allow =>
      decision (_force_overwrite st') = Allow /\
      count is_confirm (issued st st') = 0 /\
      _should_overwrite env false path st' = (Ok true, st')
  | Deny =>
      decision (_force_overwrite st') = Deny /\
      count is_confirm (issued st st') = 0 /\
      fst (_should_overwrite env false path st') = Ok false /\
      count is_confirm (issued st' (snd (_should_overwrite env false path st'))) = 0
  end.
Proof.
  split; [reflexivity|]. intros st'.
  destruct (download_files_keeps_decision data_files overwrite_flag
              organization_id st) as [_ K].
  fold st' in K.
  destruct (_force_overwrite st) as [[|]|] eqn:F; cbn [decision].
  - destruct K as [K1 K2]. rewrite K1. repeat split; auto.
    destruct st' as [force cache d' t']. cbn in K1. subst force. now run.
  - destruct K as [K1 K2]. rewrite K1. repeat split; auto;
      destruct st' as [force cache d' t']; cbn in K1; subst force; run; auto.
    now issued_simp.
  - destruct (_force_overwrite st') as [[|]|]; cbn [decision];
      rewrite K; repeat split; auto; try discriminate.
Qed.

End DecisionLife.

(** C1, as the specification has it, fails: a second call of
    [download_files] on the same instance starts with the decision the first
    call took.  The user declined in the first run; the second run meets the
    same conflict, starts [Deny], and skips the file without asking. *)
Lemma second_run_starts_decided :
  let st0 := Demo.fresh Demo.disk_with_x in
  let st1 := snd (download_files Demo.declining [Demo.file_x] false "org" st0) in
  let st2 := snd (download_files Demo.declining [Demo.file_x] false "org" st1) in
  decision (_force_overwrite st0) = Undecided /\
  count is_confirm (issued st0 st1) = 1 /\
  decision (_force_overwrite st1) = Deny /\
  issued st1 st2 =
    [GetDataDirectory (Ok "data"); LogProgress 1 1 "a/x.zip" 5;
     LogWarn (already_exists_msg "data/a/x.zip"); LogWarn not_billed_msg].
Proof. vm_compute. repeat split; reflexivity. Qed.

(* ------------------------------------------------------------------ *)
(** *** Which map-file bundle is used *)

Lemma ascii_compare_refl (c : ascii) : Ascii.compare c c = Eq.
Proof. unfold Ascii.compare. apply N.compare_refl. Qed.

Lemma string_compare_refl (s : string) : String.compare s s = Eq.
Proof.
  induction s as [|c s IH]; [reflexivity|].
  cbn [String.compare]. now rewrite ascii_compare_refl.
Qed.

Lemma str_le_refl (s : string) : str_le_prop s s.
Proof.
  unfold str_le_prop, PyStr.str_le, String.leb. now rewrite string_compare_refl.
Qed.

Lemma string_compare_not_gt_trans (a b c : string) :
  String.compare a b <> Gt -> String.compare b c <> Gt ->
  String.compare a c <> Gt.
Proof.
  revert b c. induction a as [|x a IH]; intros [|y b] [|z c];
    cbn [String.compare]; try congruence.
  destruct (Ascii.compare x y) eqn:XY; try congruence;
    destruct (Ascii.compare y z) eqn:YZ; try congruence.
  - apply Ascii.compare_eq_iff in XY, YZ. subst.
    rewrite ascii_compare_refl. apply IH.
  - apply Ascii.compare_eq_iff in XY. subst. now rewrite YZ.
  - apply Ascii.compare_eq_iff in YZ. subst. now rewrite XY.
  - intros _ _. unfold Ascii.compare in *.
    rewrite N.compare_lt_iff in XY, YZ.
    assert (L : (N_of_ascii x < N_of_ascii z)%N) by (eapply N.lt_trans; eauto).
    rewrite <- N.compare_lt_iff in L. now rewrite L.
Qed.

Lemma str_le_trans (a b c : string) :
  str_le_prop a b -> str_le_prop b c -> str_le_prop a c.
Proof.
  unfold str_le_prop, PyStr.str_le, String.leb. intros AB BC.
  pose proof (string_compare_not_gt_trans a b c) as T.
  destruct (String.compare a b); try discriminate;
    destruct (String.compare b c); try discriminate;
    destruct (String.compare a c); try reflexivity;
    exfalso; apply T; congruence.
Qed.

Lemma py_last_nonempty {A : Type} (x : A) (l : list A) :
  is_ok (py_last (x :: l)) = true.
Proof.
  revert x. induction l as [|y l IH]; intros x; [reflexivity|].
  change (py_last (x :: y :: l)) with (py_last (y :: l)). apply IH.
Qed.

Lemma latest_map_files_zip_cons (m : string) (rest : list string) :
  latest_map_files_zip (m :: rest)
  = match latest_map_files_zip rest with
    | Ok z => Ok z
    | Raise _ => if is_zip m then Ok m else Raise IndexError
    end.
Proof.
  unfold latest_map_files_zip. cbn [filter].
  destruct (is_zip m).
  - destruct (filter is_zip rest) as [|x l]; [reflexivity|].
    change (py_last (m :: x :: l)) with (py_last (x :: l)).
    pose proof (py_last_nonempty x l) as N.
    now destruct (py_last (x :: l)).
  - destruct (filter is_zip rest) as [|x l]; [reflexivity|].
    pose proof (py_last_nonempty x l) as N.
    now destruct (py_last (x :: l)).
Qed.

Lemma latest_map_files_zip_none (entries : list string) :
  is_ok (latest_map_files_zip entries) = false
  <-> Forall (fun m => is_zip m = false) entries.
Proof.
  induction entries as [|m rest IH].
  - split; [constructor | reflexivity].
  - rewrite latest_map_files_zip_cons.
    destruct (latest_map_files_zip rest) as [z|e]; cbn [is_ok] in *.
    + split; [discriminate|]. intros F. inversion F; subst. now apply IH.
    + destruct (is_zip m) eqn:Z; cbn [is_ok].
      * split; [discriminate|]. intros F. inversion F; congruence.
      * split; [|reflexivity]. intros _. constructor; [exact Z | now apply IH].
Qed.

Lemma latest_map_files_zip_raises (entries : list string) (e : exn) :
  latest_map_files_zip entries = Raise e -> e = IndexError.
Proof.
  induction entries as [|m rest IH].
  - cbn. congruence.
  - rewrite latest_map_files_zip_cons.
    destruct (latest_map_files_zip rest); [discriminate|].
    destruct (is_zip m); congruence.
Qed.

Lemma latest_map_files_zip_position (entries : list string) (z : string) :
  latest_map_files_zip entries = Ok z
  <-> exists before after,
        entries = (before ++ z :: after)%list /\ is_zip z = true /\
        Forall (fun m => is_zip m = false) after.
Proof.
  revert z. induction entries as [|m rest IH]; intros z.
  - split; [discriminate|]. intros (b & a & E & _). now destruct b.
  - rewrite latest_map_files_zip_cons.
    pose proof (latest_map_files_zip_none rest) as N.
    destruct (latest_map_files_zip rest) as [z'|e] eqn:L; cbn [is_ok] in N.
    + split.
      * intros [= ->]. destruct (proj1 (IH z) eq_refl) as (b & a & -> & Z & F).
        now exists (m :: b), a.
      * intros ([|x b] & a & E & Z & F); injection E as -> ->.
        -- apply N in F. discriminate.
        -- apply IH. now exists b, a.
    + assert (F : Forall (fun m => is_zip m = false) rest) by now apply N.
      split.
      * destruct (is_zip m) eqn:Z; [|discriminate]. intros [= <-].
        now exists [], rest.
      * intros ([|x b] & a & E & Z & Fa); injection E as -> ->.
        -- now rewrite Z.
        -- exfalso. apply Forall_app in F. destruct F as [_ F].
           inversion F; congruence.
Qed.

Lemma strongly_sorted_before (entries before after : list string) (z m : string) :
  StronglySorted str_le_prop entries ->
  entries = (before ++ z :: after)%list -> In m before -> str_le_prop m z.
Proof.
  intros S. revert before. induction S as [|x l S IH F]; intros before E M.
  - now destruct before.
  - destruct before as [|y b]; [contradiction|].
    injection E as -> ->. destruct M as [<-|M].
    + rewrite Forall_forall in F. apply F.
      apply in_or_app. right. now left.
    + now apply (IH b).
Qed.

(** C6, as the code has it.  The bundle is the entry ending in ".zip" that
    comes last in the order of the listing: a ".zip" entry with no ".zip"
    entry listed after it.  When the listing is in ascending order, and only
    then for sure, that entry is the greatest ".zip" entry in the order on
    strings. *)
Theorem bundle_is_last_listed_zip (entries : list string) (z : string) :
  (latest_map_files_zip entries = Ok z
   <-> exists before after,
         entries = (before ++ z :: after)%list /\ is_zip z = true /\
         Forall (fun m => is_zip m = false) after) /\
  (ascending entries -> latest_map_files_zip entries = Ok z ->
   forall m, In m entries -> is_zip m = true -> str_le_prop m z).
Proof.
  split; [apply latest_map_files_zip_position|].
  intros A L m M Z.
  apply latest_map_files_zip_position in L.
  destruct L as (before & after & E & Zz & F).
  assert (S : StronglySorted str_le_prop entries).
  { apply Sorted_StronglySorted; [|exact A].
    intros a b c. apply str_le_trans. }
  rewrite E in M. apply in_app_or in M. destruct M as [M|[<-|M]].
  - eapply strongly_sorted_before; eauto.
  - apply str_le_refl.
  - rewrite Forall_forall in F. apply F in M. congruence.
Qed.

Lemma bundle_is_last_listed_zip_witness :
  latest_map_files_zip ["a.zip"; "b.zip"; "readme.txt"] = Ok "b.zip" /\
  str_le_prop "a.zip" "b.zip".
Proof.
  pose proof (bundle_is_last_listed_zip ["a.zip"; "b.zip"; "readme.txt"] "b.zip")
    as [_ W].
  assert (A : ascending ["a.zip"; "b.zip"; "readme.txt"])
    by (repeat constructor).
  assert (L : latest_map_files_zip ["a.zip"; "b.zip"; "readme.txt"] = Ok "b.zip")
    by reflexivity.
  split; [exact L|].
  apply (W A L "a.zip"); [now left | reflexivity].
Defined.

(** C6, as the specification has it, fails: of the listing b.zip, a.zip the
    code takes a.zip, the last one listed, though b.zip is the last in the
    order on strings. *)
Lemma last_listed_is_not_greatest :
  latest_map_files_zip ["b.zip"; "a.zip"; "readme.txt"] = Ok "a.zip" /\
  is_zip "b.zip" = true /\
  PyStr.str_le "b.zip" "a.zip" = false /\
  count is_fetch
    (filter (fun ev => match ev with
                       | DownloadFile f _ _ => String.eqb f "a.zip"
                       | _ => false
                       end)
       (trace (snd (download_map_files Demo.declining "org" (Demo.fresh [])))))
  = 1.
Proof. vm_compute. repeat split; reflexivity. Qed.

(* ------------------------------------------------------------------ *)
(** *** The map-file cache *)

Section MapFileCache.

Context {MapFile Price FS : Type} `{FileSystem FS}.
Variable env : Env MapFile Price.

Local Abbreviation state := (state MapFile Price FS).
Local Abbreviation event := (event MapFile Price).

(** What reading the entries of the archive does and leaves alone. *)
Lemma read_map_files_summary (z : zip_archive) (names : list string)
    (acc : list MapFile) (st : state) :
  let (r, s) := read_map_files env z names acc st in
  extends st s /\ disk s = disk st /\
  _map_files_cache s = _map_files_cache st /\
  _force_overwrite s = _force_overwrite st /\
  Forall (fun ev => is_entry_event ev = true) (issued st s) /\
  match r with
  | Ok _ => existsb failed (issued st s) = false
  | Raise e => exists before ev,
      issued st s = (before ++ [ev])%list /\ error_of ev = Some e
  end.
Proof.
  revert acc st. induction names as [|name rest IH]; intros acc st.
  - cbn. rewrite issued_refl. repeat split; auto using extends_refl.
  - cbn [read_map_files]. unfold bind at 1, read_zip, call.
    set (s1 := add_event _ st).
    destruct (zip_read z name) as [raw|e] eqn:R.
    2:{ subst s1. rewrite issued_add_event.
        repeat split; auto using extends_add_event.
        exists [], (ZipRead name (Raise e)). split; reflexivity. }
    unfold bind at 1, decode, call. set (s2 := add_event _ s1).
    assert (E2 : trace s2 = (trace st ++ [ZipRead name (Ok raw);
                                          Decode raw (decode_utf8 env raw)])%list)
      by (subst s2 s1; st_simpl; now rewrite <- app_assoc).
    destruct (decode_utf8 env raw) as [text|e] eqn:D.
    2:{ rewrite (issued_app _ _ _ E2).
        repeat split; eauto using extends_intro.
        exists [ZipRead name (Ok raw)], (Decode raw (Raise e)).
        split; reflexivity. }
    unfold bind at 1, parse, call. set (s3 := add_event _ s2).
    assert (E3 : trace s3 = (trace st ++ [ZipRead name (Ok raw);
                                          Decode raw (Ok text);
                                          Parse text (MapFile_parse env text)])%list)
      by (subst s3; st_simpl; rewrite E2; now rewrite <- app_assoc).
    destruct (MapFile_parse env text) as [parsed|e] eqn:P.
    2:{ rewrite (issued_app _ _ _ E3).
        repeat split; eauto using extends_intro.
        exists [ZipRead name (Ok raw); Decode raw (Ok text)],
               (Parse text (Raise e)).
        split; reflexivity. }
    specialize (IH (acc ++ [parsed])%list s3).
    destruct (read_map_files env z rest (acc ++ [parsed]) s3) as [r s].
    destruct IH as (X & Dk & C & F & Only & Out).
    assert (X3 : extends st s3) by (eapply extends_intro; exact E3).
    rewrite (issued_trans st s3 s X3 X), (issued_app _ _ _ E3).
    repeat split.
    + eapply extends_trans; eauto.
    + now rewrite Dk.
    + now rewrite C.
    + now rewrite F.
    + apply Forall_app. split; [repeat constructor | exact Only].
    + destruct r as [l|e].
      * rewrite existsb_app, Out. reflexivity.
      * destruct Out as (before & ev & -> & Err).
        exists ([ZipRead name (Ok raw); Decode raw (Ok text);
                 Parse text (Ok parsed)] ++ before)%list, ev.
        split; [now rewrite <- app_assoc | exact Err].
Qed.


Lemma issued_set_map_files_cache (v : option (list MapFile)) (a s : state) :
  issued a (set_map_files_cache v s) = issued a s.
Proof. reflexivity. Qed.

Ltac not_an_archive :=
  match goal with
  | N : fs_is_file ?d ?p = false, O : fs_zip_open ?d ?p = Ok _ |- _ =>
      pose proof (fs_zip_open_is_file d p N) as Bad;
      rewrite O in Bad; discriminate Bad
  end.

Ltac use_read_summary :=
  repeat match goal with
  | Hq : read_map_files _ ?z ?n ?a ?s = _ |- _ =>
      let RS := fresh "RS" in
      pose proof (read_map_files_summary z n a s) as RS;
      rewrite Hq in RS; clear Hq;
      destruct RS as (X & Dk & C & F & Only & Out)
  end.

(** [issued st s], where [s] extends an explicit state [sk], which extends
    [st]. *)
Ltac issued_through :=
  rewrite ?issued_set_map_files_cache;
  match goal with
  | X : extends ?sk ?s |- context [issued ?st ?s] =>
      rewrite (issued_trans st sk s
                 ltac:(eapply extends_intro; st_simpl;
                       rewrite <- ?app_assoc; reflexivity) X)
  end;
  issued_simp.

(** An uncached call stores the list it returns, and nothing if it fails. *)
Lemma no_partial_cache_aux (organization_id : string) (st : state) :
  _map_files_cache st = None ->
  let (r, st1) := download_map_files env organization_id st in
  match r with
  | Ok map_files => _map_files_cache st1 = Some map_files
  | Raise e => _map_files_cache st1 = None
  end.
Proof.
  intros Cold.
  destruct (download_map_files env organization_id st) as [r st1] eqn:R.
  destruct st as [force cache d t]. cbn in Cold. subst cache.
  paths R; use_read_summary; st_simpl; congruence.
Qed.

Lemma error_of_failed (ev : event) (e : exn) :
  error_of ev = Some e -> failed ev = true.
Proof.
  destruct ev as [| | | |r|? r|? ? r|? r|? ? r|? r|? r|? r|? r|r|? ? r];
    try discriminate; now destruct r.
Qed.

(** Where the first failed event of a trace can be, after a part without
    failed events. *)
Lemma first_failed_event (quiet rest before after : list event) (ev : event) :
  existsb failed quiet = false -> failed ev = true ->
  (quiet ++ rest)%list = (before ++ ev :: after)%list ->
  exists k, before = (quiet ++ k)%list /\ rest = (k ++ ev :: after)%list.
Proof.
  revert before. induction quiet as [|q quiet IH]; intros before Q F E.
  - now exists before.
  - cbn [existsb] in Q. apply orb_false_iff in Q. destruct Q as [Qq Q].
    destruct before as [|b before]; cbn [app] in E; injection E as -> E.
    + congruence.
    + destruct (IH before Q F E) as (k & -> & ->). now exists k.
Qed.

(** Reading the archive stops at the first entry that cannot be read,
    decoded or parsed, with that step's exception. *)
Lemma read_map_files_first_failure (z : zip_archive) (names : list string)
    (acc : list MapFile) (st : state) :
  let (r, s) := read_map_files env z names acc st in
  match r with
  | Ok _ => True
  | Raise e => exists before ev,
      issued st s = (before ++ [ev])%list /\ error_of ev = Some e /\
      absorbed_fetch ev = false /\ existsb failed before = false
  end.
Proof.
  revert acc st. induction names as [|name rest IH]; intros acc st.
  - exact I.
  - cbn [read_map_files]. unfold bind at 1, read_zip, call.
    set (s1 := add_event _ st).
    destruct (zip_read z name) as [raw|e] eqn:R.
    2:{ subst s1. rewrite issued_add_event.
        exists [], (ZipRead name (Raise e)). repeat split. }
    unfold bind at 1, decode, call. set (s2 := add_event _ s1).
    assert (E2 : trace s2 = (trace st ++ [ZipRead name (Ok raw);
                                          Decode raw (decode_utf8 env raw)])%list)
      by (subst s2 s1; st_simpl; now rewrite <- app_assoc).
    destruct (decode_utf8 env raw) as [text|e] eqn:D.
    2:{ rewrite (issued_app _ _ _ E2).
        exists [ZipRead name (Ok raw)], (Decode raw (Raise e)).
        repeat split. }
    unfold bind at 1, parse, call. set (s3 := add_event _ s2).
    assert (E3 : trace s3 = (trace st ++ [ZipRead name (Ok raw);
                                          Decode raw (Ok text);
                                          Parse text (MapFile_parse env text)])%list)
      by (subst s3; st_simpl; rewrite E2; now rewrite <- app_assoc).
    destruct (MapFile_parse env text) as [parsed|e] eqn:P.
    2:{ rewrite (issued_app _ _ _ E3).
        exists [ZipRead name (Ok raw); Decode raw (Ok text)],
               (Parse text (Raise e)).
        repeat split. }
    specialize (IH (acc ++ [parsed])%list s3).
    pose proof (read_map_files_summary z rest (acc ++ [parsed])%list s3) as RS.
    destruct (read_map_files env z rest (acc ++ [parsed]) s3) as [[l|e] s];
      [exact I|].
    destruct RS as (X & _).
    destruct IH as (before & ev & Ev & Err & NotAbsorbed & Quiet).
    assert (X3 : extends st s3) by (eapply extends_intro; exact E3).
    rewrite (issued_trans st s3 s X3 X), (issued_app _ _ _ E3), Ev.
    exists ([ZipRead name (Ok raw); Decode raw (Ok text);
             Parse text (Ok parsed)] ++ before)%list, ev.
    repeat split; auto.
Qed.

Ltac use_read_failure :=
  try match goal with
  | Hq : read_map_files _ ?z ?n ?a ?s = _ |- _ =>
      let RF := fresh "RF" in
      pose proof (read_map_files_first_failure z n a s) as RF;
      rewrite Hq in RF
  end.

Lemma latest_map_files_zip_empty (entries : list string) (e : exn) :
  latest_map_files_zip entries = Raise e -> filter is_zip entries = [].
Proof.
  unfold latest_map_files_zip.
  destruct (filter is_zip entries) as [|x l]; [reflexivity|].
  pose proof (py_last_nonempty x l) as N. intros E. rewrite E in N.
  discriminate N.
Qed.

(** The ways a failed call can have ended, each on the trace of its path. *)
Ltac ended_without_bundle :=
  left; split;
  [ eapply latest_map_files_zip_raises; eassumption
  | eexists; split;
    [ reflexivity | eapply latest_map_files_zip_empty; eassumption ] ].

Ltac ended_at_failed_step :=
  right; left;
  match goal with
  | |- exists before ev, ?l = _ /\ _ =>
      exists (removelast l), (last l (LogInfo EmptyString));
      repeat split; first [reflexivity | assumption]
  end.

Ltac ended_at_failed_entry :=
  right; left;
  match goal with
  | RF : exists before ev, _ /\ _ /\ _ /\ _ |- _ =>
      let before := fresh "before" in
      let ev := fresh "ev" in
      destruct RF as (before & ev & -> & ? & ? & ?);
      rewrite ?app_comm_cons; eexists _, ev;
      split; [reflexivity | repeat split; assumption]
  end.

Ltac ended_at_missing_archive :=
  right; right;
  match goal with
  | |- exists before f not_found p, ?l = _ /\ _ =>
      exists (firstn (length l - 3) l); eexists _, _, _;
      split; [reflexivity | repeat split; first [reflexivity | assumption]]
  end.

(** How an uncached call of [download_map_files] can end. *)
Lemma download_map_files_outcome (organization_id : string) (st : state) :
  _map_files_cache st = None ->
  let (r, st1) := download_map_files env organization_id st in
  match r with
  | Ok _ => existsb failed (issued st st1) = false
  | Raise e =>
      (e = IndexError /\
       exists entries,
         issued st st1 = [ListFiles map_files_prefix (Ok entries)] /\
         filter is_zip entries = []) \/
      (exists before ev,
         issued st st1 = (before ++ [ev])%list /\ error_of ev = Some e /\
         absorbed_fetch ev = false /\ existsb failed before = false) \/
      (exists before f not_found p,
         issued st st1
         = (before ++ [DownloadFile f organization_id (Raise not_found);
                       LogWarn (not_found_msg f);
                       ZipOpen p (Raise e)])%list /\
         file_not_found not_found = true /\
         fs_is_file (disk st) p = false /\
         fs_zip_open (disk st) p = Raise e /\
         existsb failed before = false)
  end.
Proof.
  intros Cold.
  destruct (download_map_files env organization_id st) as [r st1] eqn:R.
  destruct st as [force cache d t]. cbn in Cold. subst cache.
  paths R; use_read_failure; use_read_summary; st_simpl;
    rewrite ?negb_true_iff, ?negb_false_iff in *; try not_an_archive.
  all: try issued_through.
  all: issued_simp.
  all: try assumption.
  all: first [ solve [ended_without_bundle]
             | solve [ended_at_failed_entry]
             | solve [ended_at_failed_step]
             | solve [ended_at_missing_archive] ].
Qed.

(** C7, as the code has it.  An uncached call of [download_map_files] stores
    the list it returns and, when it fails, nothing.  A step that fails
    (listing, data directory, fetch, making the directory, writing, opening
    the archive, reading, decoding or parsing an entry) is the last step of
    the call, and the call raises that step's exception: with one exception,
    the fetch answered "File not found", which [_download_file] absorbs with
    the not-billed warning; the call then goes on to open the archive that is
    not there, and raises the exception of that opening instead.  A call that
    fails without a failed step raised [IndexError] right after a listing
    without a ".zip" entry.  So a call with a failed step never succeeds. *)
Theorem failed_step_ends_the_call (organization_id : string) (st : state) :
  _map_files_cache st = None ->
  let (r, st1) := download_map_files env organization_id st in
  match r with
  | Ok map_files =>
      _map_files_cache st1 = Some map_files /\
      existsb failed (issued st st1) = false
  | Raise e =>
      _map_files_cache st1 = None /\
      (existsb failed (issued st st1) = false ->
       e = IndexError /\
       exists entries,
         issued st st1 = [ListFiles map_files_prefix (Ok entries)] /\
         filter is_zip entries = [])
  end /\
  forall before ev after e,
    issued st st1 = (before ++ ev :: after)%list -> error_of ev = Some e ->
    if absorbed_fetch ev
    then exists f p e',
           ev = DownloadFile f organization_id (Raise e) /\
           after = [LogWarn (not_found_msg f); ZipOpen p (Raise e')] /\
           fs_is_file (disk st) p = false /\
           fs_zip_open (disk st) p = Raise e' /\
           r = Raise e'
    else after = [] /\ r = Raise e.
Proof.
  intros Cold.
  pose proof (no_partial_cache_aux organization_id st Cold) as Cache.
  pose proof (download_map_files_outcome organization_id st Cold) as Outcome.
  destruct (download_map_files env organization_id st) as [[map_files|e0] st1].
  - split; [now split|].
    intros before ev after e E Err. apply error_of_failed in Err.
    rewrite E, existsb_app in Outcome. cbn [existsb] in Outcome.
    rewrite Err, orb_true_r in Outcome. discriminate Outcome.
  - split.
    + split; [exact Cache|]. intros Quiet.
      destruct Outcome as [Empty|[(pre & final & E & Err & _)
                                 |(pre & f & not_found & p & E & _)]].
      * exact Empty.
      * apply error_of_failed in Err.
        rewrite E, existsb_app in Quiet. cbn [existsb] in Quiet.
        rewrite Err, orb_true_r in Quiet. discriminate Quiet.
      * rewrite E, existsb_app in Quiet. cbn [existsb failed is_ok negb] in Quiet.
        rewrite orb_true_r in Quiet. discriminate Quiet.
    + intros before ev after e E Err.
      pose proof (error_of_failed ev e Err) as Fev.
      destruct Outcome as [(_ & entries & L & _)
                          |[(pre & final & L & Err0 & Kept & Quiet)
                           |(pre & f & not_found & p & L & NF & Gone & Shut
                             & Quiet)]];
        rewrite L in E.
      * destruct before as [|b [|b' before]]; try discriminate E.
        injection E as <- _. discriminate Err.
      * destruct (first_failed_event pre [final] before after ev Quiet Fev E)
          as ([|x [|x' k]] & -> & K); try discriminate K.
        injection K as <- <-. rewrite Kept. split; congruence.
      * destruct (first_failed_event pre _ before after ev Quiet Fev E)
          as ([|x1 [|x2 [|x3 [|x4 k]]]] & -> & K); try discriminate K;
          injection K as <-; subst; try discriminate Err.
        -- cbn [absorbed_fetch]. rewrite NF. cbn [error_of] in Err.
           injection Err as ->. now exists f, p, e0.
        -- cbn [absorbed_fetch]. cbn [error_of] in Err. split; congruence.
Qed.

Lemma download_map_files_cached (organization_id : string) (st : state)
    (cached : list MapFile) :
  _map_files_cache st = Some cached ->
  download_map_files env organization_id st = (Ok cached, st).
Proof.
  intros C. unfold download_map_files, bind, gets. now rewrite C.
Qed.

Lemma entry_events_are_quiet (evs : list event) :
  Forall (fun ev => is_entry_event ev = true) evs ->
  length (filter is_listing evs) = 0 /\ length (filter is_fetch evs) = 0.
Proof.
  induction 1 as [|ev evs E _ [IH1 IH2]]; [split; reflexivity|].
  destruct ev; try discriminate E; cbn [filter is_listing is_fetch]; auto.
Qed.

(** C5.  [download_map_files] is memoized.  A call that succeeds leaves the
    list it returns in the cache, and the next call returns that list and
    changes nothing: it lists nothing, fetches nothing and opens no archive.
    Over both calls, when the first started with an empty cache, there is
    exactly one listing and at most one fetch. *)
Theorem map_files_memoized (first_org second_org : string) (st : state) :
  match download_map_files env first_org st with
  | (Ok map_files, st1) =>
      let st2 := snd (download_map_files env second_org st1) in
      _map_files_cache st1 = Some map_files /\
      download_map_files env second_org st1 = (Ok map_files, st1) /\
      issued st1 st2 = [] /\
      match _map_files_cache st with
      | Some cached => map_files = cached /\ st1 = st
      | None => count is_listing (issued st st2) = 1 /\
                count is_fetch (issued st st2) <= 1
      end
  | (Raise _, _) => True
  end.
Proof.
  destruct (download_map_files env first_org st) as [[map_files|e] st1] eqn:R;
    [|exact I].
  destruct (_map_files_cache st) as [cached|] eqn:C.
  - rewrite (download_map_files_cached first_org st cached C) in R.
    injection R as <- <-.
    rewrite (download_map_files_cached second_org st cached C). cbn [snd].
    rewrite issued_refl. auto.
  - assert (C1 : _map_files_cache st1 = Some map_files).
    { pose proof (no_partial_cache_aux first_org st C) as N.
      rewrite R in N. apply N. }
    rewrite (download_map_files_cached second_org st1 map_files C1). cbn [snd].
    rewrite issued_refl. repeat split; auto.
    all: destruct st as [force cache d t]; cbn in C; subst cache.
    all: paths R; use_read_summary; st_simpl;
      rewrite ?negb_true_iff, ?negb_false_iff in *; try not_an_archive.
    all: issued_through; apply entry_events_are_quiet in Only;
      destruct Only as [Q1 Q2]; rewrite ?Q1, ?Q2; auto.
Qed.

(** C10.  Without an entry ending in ".zip" in the listing, the empty
    listing included, an uncached call raises [IndexError] right after the
    listing, and stores nothing; so a call that succeeds had a listing with
    such an entry. *)
Theorem no_zip_entry_raises (organization_id : string) (st : state) :
  _map_files_cache st = None ->
  (forall entries,
     api_list_files env (trace st) map_files_prefix = Ok entries ->
     filter is_zip entries = [] ->
     download_map_files env organization_id st
     = (Raise IndexError,
        add_event (ListFiles map_files_prefix (Ok entries)) st)) /\
  (forall map_files,
     fst (download_map_files env organization_id st) = Ok map_files ->
     exists entries m,
       api_list_files env (trace st) map_files_prefix = Ok entries /\
       In m entries /\ is_zip m = true).
Proof.
  intros Cold. split.
  - intros entries L Z.
    unfold download_map_files, bind at 1, gets. rewrite Cold.
    unfold bind at 1, list_files, call. rewrite L.
    unfold bind at 1, lift, latest_map_files_zip. rewrite Z. reflexivity.
  - intros map_files.
    destruct (download_map_files env organization_id st) as [r st1] eqn:R.
    cbn [fst]. intros ->.
    destruct st as [force cache d t]. cbn in Cold. subst cache.
    paths R.
    all: match goal with
         | L : api_list_files _ _ _ = Ok ?a, Z : latest_map_files_zip ?a = Ok ?z
           |- _ =>
             exists a, z; split; [first [exact L | reflexivity]|];
             apply latest_map_files_zip_position in Z;
             destruct Z as (before & after & -> & Zz & _);
             split; [apply in_or_app; right; now left | exact Zz]
         end.
Qed.

(** The bundle an uncached call fetches and opens is the one
    [latest_map_files_zip] picks from the listing, under the data directory. *)
Lemma download_map_files_uses_latest (organization_id : string) (st : state)
    (ev : event) :
  _map_files_cache st = None ->
  In ev (issued st (snd (download_map_files env organization_id st))) ->
  is_fetch ev = true \/ (exists p r, ev = ZipOpen p r) ->
  exists entries dir z,
    api_list_files env (trace st) map_files_prefix = Ok entries /\
    latest_map_files_zip entries = Ok z /\
    get_data_directory env
      (trace st ++ [ListFiles map_files_prefix (Ok entries)])%list = Ok dir /\
    ((exists r, ev = DownloadFile z organization_id r) \/
     (exists r, ev = ZipOpen (path_join dir z) r)).
Proof.
  intros Cold.
  destruct (download_map_files env organization_id st) as [r st1] eqn:R.
  cbn [snd]. destruct st as [force cache d t]. cbn in Cold. subst cache.
  paths R; use_read_summary; st_simpl.
  all: try issued_through.
  all: issued_simp.
  all: intros I K.
  all: repeat (destruct I as [<-|I];
               [ try (destruct K as [K|(? & ? & K)]; discriminate K) | ]).
  all: try contradiction.
  all: try (exfalso; rewrite Forall_forall in Only; apply Only in I;
            destruct K as [K|(? & ? & ->)];
            [destruct ev; discriminate | discriminate]).
  all: eexists _, _, _; repeat split; eauto.
Qed.

End MapFileCache.

Lemma failed_step_ends_the_call_witness :
  (let (r, st1) := download_map_files Demo.bundle_gone "org" (Demo.fresh []) in
   _map_files_cache st1 = None /\
   exists p e',
     r = Raise e' /\ fs_zip_open (disk (Demo.fresh [])) p = Raise e') /\
  (let (r, st1) := download_map_files Demo.no_bundle "org" (Demo.fresh []) in
   r = Raise IndexError /\
   exists entries,
     issued (Demo.fresh []) st1 = [ListFiles map_files_prefix (Ok entries)] /\
     filter is_zip entries = []).
Proof.
  assert (Cold : _map_files_cache (Demo.fresh []) = None) by reflexivity.
  pose proof (failed_step_ends_the_call Demo.bundle_gone "org" (Demo.fresh [])
                Cold) as Gone.
  pose proof (failed_step_ends_the_call Demo.no_bundle "org" (Demo.fresh [])
                Cold) as Without.
  split.
  - destruct (download_map_files Demo.bundle_gone "org" (Demo.fresh []))
      as [r st1] eqn:Run.
    vm_compute in Run. injection Run as <- <-.
    destruct Gone as [[Cache _] Steps]. split; [exact Cache|].
    set (not_found := RequestFailedError "GET request failed: File not found").
    set (fetch := DownloadFile "a/y.zip" "org" (Raise not_found)
                  : event string nat).
    assert (Cut : issued (Demo.fresh [])
                    {| _force_overwrite := None; _map_files_cache := None;
                       disk := [];
                       trace := [ListFiles map_files_prefix (Ok ["a/y.zip"]);
                                 GetDataDirectory (Ok "data");
                                 LogInfo "Downloading the latest map files (free)";
                                 fetch;
                                 LogWarn (not_found_msg "a/y.zip");
                                 ZipOpen "data/a/y.zip"
                                   (Raise (OtherError "FileNotFoundError"))] |}
                  = ([ListFiles map_files_prefix (Ok ["a/y.zip"]);
                      GetDataDirectory (Ok "data");
                      LogInfo "Downloading the latest map files (free)"]
                     ++ fetch
                     :: [LogWarn (not_found_msg "a/y.zip");
                         ZipOpen "data/a/y.zip"
                           (Raise (OtherError "FileNotFoundError"))])%list)
      by reflexivity.
    assert (Err : error_of fetch = Some not_found) by reflexivity.
    assert (Absorbed : absorbed_fetch fetch = true) by reflexivity.
    specialize (Steps _ fetch _ not_found Cut Err). rewrite Absorbed in Steps.
    destruct Steps as (f & p & e' & _ & _ & _ & Shut & Raised).
    exists p, e'. split; [exact Raised | exact Shut].
  - destruct (download_map_files Demo.no_bundle "org" (Demo.fresh []))
      as [r st1] eqn:Run.
    vm_compute in Run. injection Run as <- <-.
    destruct Without as [[_ Quiet] _].
    assert (NoFailure : existsb failed
                          (issued (Demo.fresh [])
                             {| _force_overwrite := None;
                                _map_files_cache := None;
                                disk := [];
                                trace := [ListFiles map_files_prefix
                                            (Ok ["readme.txt"])] |})
                        = false) by reflexivity.
    destruct (Quiet NoFailure) as [_ Listed].
    split; [reflexivity | exact Listed].
Defined.

(** C7, as the specification has it, fails at the fetch: the library answers
    the fetch of the bundle with "File not found"; that exception does not
    leave the call, which warns, goes on, and raises the exception of opening
    the archive that is not on the disk.  Nothing is cached. *)
Lemma absorbed_fetch_does_not_propagate :
  let not_found := RequestFailedError "GET request failed: File not found" in
  let (r, st1) := download_map_files Demo.bundle_gone "org" (Demo.fresh []) in
  trace st1 = [ListFiles map_files_prefix (Ok ["a/y.zip"]);
               GetDataDirectory (Ok "data");
               LogInfo "Downloading the latest map files (free)";
               DownloadFile "a/y.zip" "org" (Raise not_found);
               LogWarn (not_found_msg "a/y.zip");
               ZipOpen "data/a/y.zip" (Raise (OtherError "FileNotFoundError"))] /\
  r = Raise (OtherError "FileNotFoundError") /\
  r <> Raise not_found /\
  _map_files_cache st1 = None.
Proof. vm_compute. repeat split; try reflexivity. discriminate. Qed.

(** That call, step by step: the fetch is answered "File not found", which
    [_download_file] absorbs; opening the archive that is not there then
    fails, and nothing is cached. *)
Example bundle_gone_run :
  let (r, st1) := download_map_files Demo.bundle_gone "org" (Demo.fresh []) in
  r = Raise (OtherError "FileNotFoundError") /\
  _map_files_cache st1 = None /\
  count is_fetch (trace st1) = 1 /\
  count is_disk_write (trace st1) = 0.
Proof. vm_compute. repeat split; reflexivity. Qed.

(** Two calls in the world of [Demo.declining]: one listing, one fetch, the
    same list twice. *)
Example two_calls_one_listing :
  let (r1, st1) := download_map_files Demo.declining "org" (Demo.fresh []) in
  let (r2, st2) := download_map_files Demo.declining "org" st1 in
  r1 = Ok ["hello"] /\ r2 = Ok ["hello"] /\
  count is_listing (trace st2) = 1 /\ count is_fetch (trace st2) = 1 /\
  trace st2 = trace st1.
Proof. vm_compute. repeat split; reflexivity. Qed.

Lemma no_zip_entry_raises_witness :
  download_map_files Demo.no_bundle "org" (Demo.fresh [])
  = (Raise IndexError,
     add_event (ListFiles map_files_prefix (Ok ["readme.txt"])) (Demo.fresh [])).
Proof.
  assert (Cold : _map_files_cache (Demo.fresh []) = None) by reflexivity.
  assert (Listed : api_list_files Demo.no_bundle (trace (Demo.fresh []))
                     map_files_prefix = Ok ["readme.txt"]) by reflexivity.
  assert (NoZip : filter is_zip ["readme.txt"] = []) by reflexivity.
  exact (proj1 (no_zip_entry_raises Demo.no_bundle "org" (Demo.fresh []) Cold)
           ["readme.txt"] Listed NoZip).
Defined.

(* ------------------------------------------------------------------ *)
(** *** The equity-option product *)

Section EquityOptionProperties.

Context {MapFile Price FS : Type} `{FileSystem FS}.
Variable env : Env MapFile Price.

Local Abbreviation state := (state MapFile Price FS).
Local Abbreviation event := (event MapFile Price).

Lemma append_chains_files_map (base ticker : string) (dates files : list string) :
  append_chains_files base ticker dates files
  = (files ++ map (fun date => chains_file base date ticker) dates)%list.
Proof.
  revert files. induction dates as [|date rest IH]; intros files; cbn.
  - now rewrite app_nil_r.
  - rewrite IH, <- app_assoc. reflexivity.
Qed.

Lemma some_match_iff_filter_nonempty {A : Type} (p : A -> bool) (l : list A) :
  Nat.ltb 0 (length (filter p l)) = existsb p l.
Proof.
  induction l as [|x l IH]; [reflexivity|].
  cbn [filter existsb]. destruct (p x); [reflexivity | exact IH].
Qed.

(** C8, as the code has it.  For a chains product [_get_data_files] asks the
    tradable calendar once and nothing else (no listing, no date-range
    query), and returns one path per tradable date, in calendar order:
    option/{market lowercased}/chains/{date}/{ticker lowercased}.csv.  The
    ticker is lowercased in the file name. *)
Theorem chains_files_one_per_tradable_date
    (self : EquityOptionProduct) (st : state) :
  _data_type self = Chains ->
  let (r, st') := _get_data_files env self st in
  let answer := tradable_dates env self (trace st) in
  st' = add_event (TradableDates answer) st /\
  count is_range_or_probe (issued st st') = 0 /\
  match answer with
  | Ok dates =>
      exists files,
        r = Ok files /\
        length files = length dates /\
        files = map (fun date =>
                       ("option/" ++ PyStr.lower (_market self) ++ "/chains")
                       ++ "/" ++ date ++ "/"
                       ++ PyStr.lower (_ticker self) ++ ".csv") dates
  | Raise e => r = Raise e
  end.
Proof.
  intros Kind. unfold _get_data_files. rewrite Kind.
  cbn [DataTypeEnum.is_chains negb].
  unfold bind, _get_tradable_dates, call, ret.
  destruct (tradable_dates env self (trace st)) as [dates|e].
  - rewrite issued_add_event. repeat split.
    eexists. split; [reflexivity|].
    rewrite append_chains_files_map. cbn [app].
    split; [apply length_map | reflexivity].
  - rewrite issued_add_event. repeat split.
Qed.

(** C9.  The probe [validate_ticker] answers [True] for chains data without
    any call.  For the other kinds it lists option/usa/minute/{ticker
    lowercased}/ once and answers whether some entry matches the pattern of
    the data type and option style; a failing listing fails the probe. *)
Theorem validate_ticker_probe
    (data_type : DataType) (anything : option OptionStyle)
    (option_style : OptionStyle) (t : string) (st : state) :
  match data_type with
  | Chains => validate_ticker env Chains anything t st = (Ok true, st)
  | _ =>
      let prefix := "option/usa/minute/" ++ PyStr.lower t ++ "/" in
      let pattern := probe_pattern data_type (OptionStyleEnum.name option_style) in
      let answer := api_list_files env (trace st) prefix in
      validate_ticker env data_type (Some option_style) t st
      = (match answer with
         | Ok entries => Ok (existsb (re_search env pattern) entries)
         | Raise e => Raise e
         end,
         add_event (ListFiles prefix answer) st)
  end.
Proof.
  destruct data_type; [| | |reflexivity].
  all: unfold validate_ticker; cbn [DataTypeEnum.is_chains];
    unfold option_style_name, _list_files, list_files, bind, ret, call;
    match goal with
    | |- context [api_list_files _ _ ?p] =>
        change p with ("option/usa/minute/" ++ PyStr.lower t ++ "/")
    end;
    destruct (api_list_files env (trace st) _); [|reflexivity];
    now rewrite some_match_iff_filter_nonempty.
Qed.

End EquityOptionProperties.

Lemma chains_files_one_per_tradable_date_witness :
  _get_data_files Demo.calendar Demo.spy_chains (Demo.fresh [])
  = (Ok ["option/usa/chains/20210104/spy.csv";
         "option/usa/chains/20210105/spy.csv";
         "option/usa/chains/20210106/spy.csv"],
     add_event (TradableDates (Ok Demo.three_days)) (Demo.fresh [])).
Proof.
  assert (Kind : _data_type Demo.spy_chains = Chains) by reflexivity.
  pose proof (chains_files_one_per_tradable_date Demo.calendar Demo.spy_chains
                (Demo.fresh []) Kind) as W.
  destruct (_get_data_files Demo.calendar Demo.spy_chains (Demo.fresh []))
    as [r st'].
  destruct W as (-> & _ & files & -> & _ & ->). reflexivity.
Defined.

(** C8, as the specification has it, fails where the ticker has capitals:
    for SPY the files are named spy.csv, not SPY.csv. *)
Lemma chains_file_name_is_not_the_ticker :
  fst (_get_data_files Demo.calendar Demo.spy_chains (Demo.fresh []))
  <> Ok (map (fun date => "option/usa/chains" ++ "/" ++ date ++ "/"
                          ++ _ticker Demo.spy_chains ++ ".csv")
             Demo.three_days).
Proof. vm_compute. discriminate. Qed.

(** The patterns the probe is called with. *)
Example probe_pattern_trade_american :
  probe_pattern Trade (OptionStyleEnum.name American)
  = "/\d+_trade_american\.zip".
Proof. reflexivity. Qed.

Example probe_pattern_open_interest_european :
  probe_pattern OpenInterest (OptionStyleEnum.name European)
  = "/\d+_openinterest_european\.zip".
Proof. reflexivity. Qed.

Example probe_in_the_demo_world :
  validate_ticker Demo.calendar Trade (Some American) "SPY" (Demo.fresh [])
  = (Ok true,
     add_event (ListFiles "option/usa/minute/spy/"
                  (Ok ["20210104_trade_american.zip"; "notes.txt"]))
       (Demo.fresh [])).
Proof. reflexivity. Qed.

(* ================================================================== *)
(** * Further properties of the downloader *)

(* ------------------------------------------------------------------ *)
(** *** What one download does *)

(** An explicit list as [earlier ++ [x; y]]. *)
Ltac two_before_the_end :=
  match goal with
  | |- exists earlier f, ?l = (earlier ++ [_; _])%list /\ _ =>
      exists (firstn (length l - 2) l)
  end.

Section OneDownload.

Context {MapFile Price FS : Type} `{FileSystem FS}.
Variable env : Env MapFile Price.

Local Abbreviation state := (state MapFile Price FS).
Local Abbreviation event := (event MapFile Price).

Lemma download_file_summary (relative_file : string) (overwrite_flag : bool)
    (data_directory : Path) (organization_id : string) (st : state) :
  let (r, s) := _download_file env relative_file overwrite_flag data_directory
                               organization_id st in
  extends st s /\
  _map_files_cache s = _map_files_cache st /\
  Forall (fun ev => is_download_event ev = true) (issued st s) /\
  fetches_within [relative_file] organization_id (issued st s) /\
  count is_fetch (issued st s) <= 1 /\
  writes_what_was_fetched data_directory [relative_file] organization_id
                          (issued st s) /\
  (count is_disk_write (issued st s) = 0 -> disk s = disk st) /\
  (overwrite_flag = true ->
   _force_overwrite s = _force_overwrite st /\
   count is_confirm (issued st s) = 0 /\
   count is_fetch (issued st s) = 1).
Proof.
  destruct (_download_file env relative_file overwrite_flag data_directory
                           organization_id st) as [r s] eqn:R.
  destruct st as [force cache d t].
  paths R.
  all: split; [eapply extends_intro; st_simpl; rewrite <- ?app_assoc; reflexivity|].
  all: issued_simp; unfold fetches_within, writes_what_was_fetched.
  all: repeat match goal with a : unit |- _ => destruct a end.
  all: repeat split; auto; try discriminate; try lia.
  all: try (repeat constructor; auto).
  all: try (intros before p content w after E; cut_list E before; subst;
            two_before_the_end; exists relative_file;
            repeat split; auto; now left).
  all: subst overwrite_flag; st_simpl; congruence.
Qed.

(** The same, about the state a download ends in. *)
Lemma download_file_facts (relative_file : string) (overwrite_flag : bool)
    (data_directory : Path) (organization_id : string) (st : state) :
  let s := snd (_download_file env relative_file overwrite_flag data_directory
                               organization_id st) in
  extends st s /\
  _map_files_cache s = _map_files_cache st /\
  Forall (fun ev => is_download_event ev = true) (issued st s) /\
  fetches_within [relative_file] organization_id (issued st s) /\
  count is_fetch (issued st s) <= 1 /\
  writes_what_was_fetched data_directory [relative_file] organization_id
                          (issued st s) /\
  (count is_disk_write (issued st s) = 0 -> disk s = disk st) /\
  (overwrite_flag = true ->
   _force_overwrite s = _force_overwrite st /\
   count is_confirm (issued st s) = 0 /\
   count is_fetch (issued st s) = 1).
Proof.
  pose proof (download_file_summary relative_file overwrite_flag
                data_directory organization_id st) as S.
  destruct (_download_file env relative_file overwrite_flag data_directory
              organization_id st). exact S.
Qed.

(** The loop keeps whatever relation between states each of its steps
    keeps. *)
Lemma download_loop_respects (R : state -> state -> Prop)
    (total : nat) (overwrite_flag : bool) (data_dir : Path)
    (organization_id : string) :
  (forall st, R st st) ->
  (forall a b c, R a b -> R b c -> R a c) ->
  (forall i n f p st, R st (add_event (LogProgress i n f p) st)) ->
  forall data_files,
  (forall df st, In df data_files ->
     R st (snd (_download_file env (file df) overwrite_flag data_dir
                               organization_id st))) ->
  forall index st,
    R st (snd (download_loop env total index data_files overwrite_flag
                             data_dir organization_id st)).
Proof.
  intros Refl Trans Line data_files.
  induction data_files as [|df rest IH]; intros Step index st.
  - apply Refl.
  - cbn [download_loop].
    set (step := _download_file env (file df) overwrite_flag data_dir
                   organization_id).
    unfold bind, emit, modify.
    set (st0 := add_event _ st).
    assert (R0 : R st st0) by apply Line.
    assert (R1 : R st0 (snd (step st0))) by (apply Step; now left).
    destruct (step st0) as [[[]|e] s1]; cbn [snd] in *.
    + apply (Trans _ s1); [now apply (Trans _ st0)|].
      apply IH. intros df' st' I. apply Step. now right.
    + now apply (Trans _ st0).
Qed.

Lemma during_refl (Q : list event -> Prop) (st : state) :
  Q [] -> during Q st st.
Proof. intros Q0. split; [apply extends_refl | now rewrite issued_refl]. Qed.

Lemma during_trans (Q : list event -> Prop) (a b c : state) :
  (forall x y, Q x -> Q y -> Q (x ++ y)%list) ->
  during Q a b -> during Q b c -> during Q a c.
Proof.
  intros App [E1 Q1] [E2 Q2]. split; [eapply extends_trans; eauto|].
  rewrite (issued_trans a b c E1 E2). now apply App.
Qed.

Lemma during_add_event (Q : list event -> Prop) (ev : event) (st : state) :
  Q [ev] -> during Q st (add_event ev st).
Proof.
  intros Q1. split; [apply extends_add_event | now rewrite issued_add_event].
Qed.

Lemma download_file_during (Q : list event -> Prop) (relative_file : string)
    (overwrite_flag : bool) (data_dir : Path) (organization_id : string)
    (st : state) :
  Q (issued st (snd (_download_file env relative_file overwrite_flag data_dir
                                    organization_id st))) ->
  during Q st (snd (_download_file env relative_file overwrite_flag data_dir
                                   organization_id st)).
Proof.
  intros Q1. split; [|exact Q1].
  pose proof (download_file_summary relative_file overwrite_flag data_dir
                organization_id st) as S.
  destruct (_download_file env relative_file overwrite_flag data_dir
              organization_id st). apply S.
Qed.

(** The loop keeps a property of events that its progress lines and its
    downloads have. *)
Lemma download_loop_during (Q : list event -> Prop)
    (total : nat) (overwrite_flag : bool) (data_dir : Path)
    (organization_id : string) (data_files : list (data_file Price)) :
  Q [] ->
  (forall x y, Q x -> Q y -> Q (x ++ y)%list) ->
  (forall i n f p, Q [LogProgress i n f p]) ->
  (forall df st, In df data_files ->
     Q (issued st (snd (_download_file env (file df) overwrite_flag data_dir
                                       organization_id st)))) ->
  forall index st,
    during Q st (snd (download_loop env total index data_files overwrite_flag
                                    data_dir organization_id st)).
Proof.
  intros Q0 App Line Step index st.
  apply download_loop_respects.
  - intros s. now apply during_refl.
  - intros a b c. now apply during_trans.
  - intros. now apply during_add_event.
  - intros df s I. apply download_file_during. now apply Step.
Qed.

Lemma no_progress_in_a_download (evs : list event) :
  Forall (fun ev => is_download_event ev = true) evs ->
  filter is_progress evs = [].
Proof.
  induction 1 as [|ev evs E _ IH]; [reflexivity|].
  destruct ev; try discriminate E; exact IH.
Qed.

Lemma download_loop_extends (total : nat) (data_files : list (data_file Price))
    (index : nat) (overwrite_flag : bool) (data_dir : Path)
    (organization_id : string) (st : state) :
  extends st (snd (download_loop env total index data_files overwrite_flag
                                 data_dir organization_id st)).
Proof.
  apply (download_loop_during (fun _ => True)); auto.
Qed.

Lemma download_loop_progress (total : nat) (data_files : list (data_file Price))
    (index : nat) (overwrite_flag : bool) (data_dir : Path)
    (organization_id : string) (st : state) :
  let (r, s) := download_loop env total index data_files overwrite_flag
                              data_dir organization_id st in
  exists rest,
    progress_lines total index data_files
    = (filter is_progress (issued st s) ++ rest)%list /\
    match r with Ok _ => rest = [] | Raise _ => True end.
Proof.
  revert index st. induction data_files as [|df files IH]; intros index st.
  - cbn. rewrite issued_refl. now exists [].
  - cbn [download_loop progress_lines].
    set (step := _download_file env (file df) overwrite_flag data_dir
                   organization_id).
    unfold bind, emit, modify.
    set (st0 := add_event _ st).
    pose proof (download_file_summary (file df) overwrite_flag data_dir
                  organization_id st0) as S.
    fold step in S.
    destruct (step st0) as [[[]|e] s1]; destruct S as (X1 & _ & Only & _).
    + specialize (IH (S index) s1).
      pose proof (download_loop_extends total files (S index) overwrite_flag
                    data_dir organization_id s1) as X2.
      destruct (download_loop env total (S index) files overwrite_flag
                  data_dir organization_id s1) as [r s]. cbn [snd] in X2.
      destruct IH as (rest & E & Done). exists rest. split; [|exact Done].
      assert (X0 : extends st st0) by apply extends_add_event.
      rewrite (issued_trans st st0 s X0 (extends_trans _ _ _ X1 X2)).
      rewrite (issued_trans st0 s1 s X1 X2).
      subst st0. rewrite issued_add_event, !filter_app.
      rewrite (no_progress_in_a_download _ Only). cbn. now rewrite E.
    + exists (progress_lines total (S index) files). split; [|exact I].
      assert (X0 : extends st st0) by apply extends_add_event.
      rewrite (issued_trans st st0 s1 X0 X1).
      subst st0. rewrite issued_add_event, filter_app.
      rewrite (no_progress_in_a_download _ Only). reflexivity.
Qed.

Lemma progress_lines_length (total index : nat)
    (data_files : list (data_file Price)) :
  length (progress_lines (MapFile := MapFile) total index data_files)
  = length data_files.
Proof.
  revert index. induction data_files as [|df rest IH]; intros index;
    [reflexivity|]. cbn. now rewrite IH.
Qed.

Lemma writes_what_was_fetched_app (data_dir : Path) (files : list string)
    (organization_id : string) (a b : list event) :
  writes_what_was_fetched data_dir files organization_id a ->
  writes_what_was_fetched data_dir files organization_id b ->
  writes_what_was_fetched data_dir files organization_id (a ++ b)%list.
Proof.
  intros Wa Wb before p content w after E.
  apply app_eq_app in E. destruct E as (l & [[Ea Eb]|[Ea Eb]]).
  - destruct l as [|x l].
    + cbn in Eb. symmetry in Eb. destruct (Wb [] p content w after Eb)
        as (earlier & f & Bad & _). now destruct earlier.
    + injection Eb as <- ->.
      apply (Wa before p content w l). exact Ea.
  - destruct (Wb l p content w after Eb) as (earlier & f & -> & P & I).
    exists (a ++ earlier)%list, f. subst before.
    now rewrite app_assoc.
Qed.

Lemma writes_what_was_fetched_one (data_dir : Path) (files : list string)
    (organization_id : string) (ev : event) :
  is_disk_write ev = false ->
  writes_what_was_fetched data_dir files organization_id [ev].
Proof.
  intros N before p content w after E.
  destruct before as [|x before].
  - injection E as -> _. discriminate N.
  - injection E as _ E. now destruct before.
Qed.

Lemma writes_what_was_fetched_more (data_dir : Path) (f : string)
    (files : list string) (organization_id : string) (evs : list event) :
  In f files ->
  writes_what_was_fetched data_dir [f] organization_id evs ->
  writes_what_was_fetched data_dir files organization_id evs.
Proof.
  intros I W before p content w after E.
  destruct (W before p content w after E) as (earlier & g & B & P & [<-|[]]).
  now exists earlier, f.
Qed.

End OneDownload.

(* ------------------------------------------------------------------ *)
(** *** A batch, as a whole *)

Section WholeBatch.

Context {MapFile Price FS : Type} `{FileSystem FS}.
Variable env : Env MapFile Price.

Local Abbreviation state := (state MapFile Price FS).
Local Abbreviation event := (event MapFile Price).

Lemma download_files_respects (R : state -> state -> Prop)
    (data_files : list (data_file Price)) (overwrite_flag : bool)
    (organization_id : string) :
  (forall st, R st st) ->
  (forall a b c, R a b -> R b c -> R a c) ->
  (forall i n f p st, R st (add_event (LogProgress i n f p) st)) ->
  (forall answer st, R st (add_event (GetDataDirectory answer) st)) ->
  (forall dir df st, In df data_files ->
     R st (snd (_download_file env (file df) overwrite_flag dir
                               organization_id st))) ->
  forall st,
    R st (snd (download_files env data_files overwrite_flag organization_id st)).
Proof.
  intros Refl Trans Line Lookup Step st.
  rewrite download_files_unfold. cbv zeta.
  destruct (get_data_directory env (trace st)) as [dir|e]; [|apply Lookup].
  eapply Trans; [apply Lookup|].
  apply download_loop_respects; auto.
Qed.

Lemma download_files_during (Q : list event -> Prop)
    (data_files : list (data_file Price)) (overwrite_flag : bool)
    (organization_id : string) :
  Q [] ->
  (forall x y, Q x -> Q y -> Q (x ++ y)%list) ->
  (forall i n f p, Q [LogProgress i n f p]) ->
  (forall answer, Q [GetDataDirectory answer]) ->
  (forall dir df st, In df data_files ->
     Q (issued st (snd (_download_file env (file df) overwrite_flag dir
                                       organization_id st)))) ->
  forall st,
    during Q st
      (snd (download_files env data_files overwrite_flag organization_id st)).
Proof.
  intros Q0 App Line Lookup Step st.
  apply download_files_respects.
  - intros s. now apply during_refl.
  - intros a b c. now apply during_trans.
  - intros. now apply during_add_event.
  - intros. now apply during_add_event.
  - intros dir df s I. apply download_file_during. now apply Step.
Qed.

Lemma download_loop_fetch_count (total : nat)
    (data_files : list (data_file Price)) (index : nat)
    (overwrite_flag : bool) (data_dir : Path) (organization_id : string)
    (st : state) :
  count is_fetch
    (issued st (snd (download_loop env total index data_files overwrite_flag
                                   data_dir organization_id st)))
  <= length data_files.
Proof.
  revert index st. induction data_files as [|df files IH]; intros index st.
  - cbn [download_loop ret snd]. now rewrite issued_refl.
  - cbn [download_loop length].
    set (step := _download_file env (file df) overwrite_flag data_dir
                   organization_id).
    unfold bind, emit, modify.
    set (st0 := add_event _ st).
    destruct (download_file_facts env (file df) overwrite_flag data_dir
                organization_id st0) as (X1 & _ & _ & _ & C1 & _).
    fold step in X1, C1.
    assert (X0 : extends st st0) by apply extends_add_event.
    destruct (step st0) as [[[]|e] s1]; cbn [snd] in *.
    + specialize (IH (S index) s1).
      pose proof (download_loop_extends env total files (S index)
                    overwrite_flag data_dir organization_id s1) as X2.
      rewrite (issued_trans st st0 _ X0 (extends_trans _ _ _ X1 X2)).
      rewrite (issued_trans st0 s1 _ X1 X2).
      subst st0. rewrite issued_add_event, !count_app. cbn. lia.
    + rewrite (issued_trans st st0 s1 X0 X1).
      subst st0. rewrite issued_add_event, count_app. cbn. lia.
Qed.

Lemma download_loop_fetches_all (total : nat)
    (data_files : list (data_file Price)) (index : nat)
    (data_dir : Path) (organization_id : string) (st : state) :
  let s := snd (download_loop env total index data_files true data_dir
                              organization_id st) in
  count is_fetch (issued st s) = count is_progress (issued st s).
Proof.
  revert index st. induction data_files as [|df files IH]; intros index st.
  - cbn [download_loop ret snd]. now rewrite issued_refl.
  - cbn [download_loop length].
    set (step := _download_file env (file df) true data_dir organization_id).
    unfold bind, emit, modify.
    set (st0 := add_event _ st).
    destruct (download_file_facts env (file df) true data_dir
                organization_id st0) as (X1 & _ & Dl & _ & _ & _ & _ & F).
    destruct (F eq_refl) as (_ & _ & C1).
    apply no_progress_in_a_download in Dl.
    fold step in X1, C1, Dl.
    assert (X0 : extends st st0) by apply extends_add_event.
    destruct (step st0) as [[[]|e] s1]; cbn [snd] in *.
    + specialize (IH (S index) s1). cbv zeta in IH.
      pose proof (download_loop_extends env total files (S index)
                    true data_dir organization_id s1) as X2.
      rewrite (issued_trans st st0 _ X0 (extends_trans _ _ _ X1 X2)).
      rewrite (issued_trans st0 s1 _ X1 X2).
      assert (Z : count is_progress (issued st0 s1) = 0)
        by (unfold count; now rewrite Dl).
      rewrite !count_app, IH, C1, Z.
      subst st0. rewrite issued_add_event. cbn. lia.
    + rewrite (issued_trans st st0 s1 X0 X1).
      assert (Z : count is_progress (issued st0 s1) = 0)
        by (unfold count; now rewrite Dl).
      rewrite !count_app, C1, Z.
      subst st0. rewrite issued_add_event. cbn. lia.
Qed.

(** X1.  [download_files] looks the data directory up once, before anything
    else.  If the lookup fails, that failure is the outcome and nothing else
    happens.  Otherwise all that follows is progress lines, warnings, the
    prompt, fetches and the storing of files: no listing, no archive, no
    second lookup.  The map-file cache is left as it was. *)
Theorem data_directory_first_and_once
    (data_files : list (data_file Price)) (overwrite_flag : bool)
    (organization_id : string) (st : state) :
  let (r, st') := download_files env data_files overwrite_flag
                                 organization_id st in
  let answer := get_data_directory env (trace st) in
  _map_files_cache st' = _map_files_cache st /\
  exists rest,
    issued st st' = GetDataDirectory answer :: rest /\
    Forall (fun ev => is_progress ev || is_download_event ev = true) rest /\
    count is_data_directory_lookup rest = 0 /\
    count is_listing rest = 0 /\
    count is_archive_access rest = 0 /\
    match answer with
    | Ok _ => True
    | Raise e => r = Raise e /\ rest = []
    end.
Proof.
  assert (Quiet : forall evs : list event,
             Forall (fun ev => is_progress ev || is_download_event ev = true) evs ->
             count is_data_directory_lookup evs = 0 /\
             count is_listing evs = 0 /\ count is_archive_access evs = 0).
  { induction 1 as [|ev evs E _ (Q1 & Q2 & Q3)]; [repeat split|].
    destruct ev; try discriminate E; repeat split; assumption. }
  rewrite download_files_unfold. cbv zeta.
  destruct (get_data_directory env (trace st)) as [dir|e].
  2:{ split; [reflexivity|]. exists []. rewrite issued_add_event.
      repeat split; auto. }
  set (st0 := add_event _ st).
  pose proof (download_loop_respects env
                (fun a b => _map_files_cache b = _map_files_cache a)
                (length data_files) overwrite_flag dir organization_id
                (fun _ => eq_refl)
                (fun a b c E1 E2 => eq_trans E2 E1)
                (fun _ _ _ _ _ => eq_refl) data_files) as Cache.
  pose proof (download_loop_during env
                (Forall (fun ev => is_progress ev || is_download_event ev = true))
                (length data_files) overwrite_flag dir organization_id
                data_files) as Only.
  specialize (Cache
    (fun df s _ =>
       proj1 (proj2 (download_file_facts env (file df) overwrite_flag dir
                       organization_id s))) 0 st0).
  assert (O : during
                (Forall (fun ev => is_progress ev || is_download_event ev = true))
                st0
                (snd (download_loop env (length data_files) 0 data_files
                        overwrite_flag dir organization_id st0))).
  { apply Only.
    - constructor.
    - intros x y Fx Fy. apply Forall_app. now split.
    - intros. repeat constructor.
    - intros df s _.
      destruct (download_file_facts env (file df) overwrite_flag dir
                  organization_id s) as (_ & _ & D & _).
      eapply Forall_impl; [|exact D]. intros ev ->. apply orb_true_r. }
  destruct (download_loop env (length data_files) 0 data_files overwrite_flag
              dir organization_id st0) as [r st']. cbn [snd] in *.
  destruct O as [X O]. split; [exact Cache|].
  destruct (Quiet _ O) as (Q1 & Q2 & Q3).
  exists (issued st0 st'). split; [|repeat split; assumption].
  rewrite (issued_trans st st0 st' (extends_add_event _ _) X).
  subst st0. now rewrite issued_add_event.
Qed.

(** X2.  The progress lines of a run are, in the order of the batch and
    numbered from 1, "[i/n] Downloading file (price QCC)" for the files the
    run reached: all of them when the run ends without an exception, the
    first ones otherwise. *)
Theorem progress_follows_the_batch
    (data_files : list (data_file Price)) (overwrite_flag : bool)
    (organization_id : string) (st : state) :
  let (r, st') := download_files env data_files overwrite_flag
                                 organization_id st in
  exists not_reached,
    progress_lines (length data_files) 0 data_files
    = (filter is_progress (issued st st') ++ not_reached)%list /\
    match r with Ok _ => not_reached = [] | Raise _ => True end.
Proof.
  rewrite download_files_unfold. cbv zeta.
  destruct (get_data_directory env (trace st)) as [dir|e].
  2:{ rewrite issued_add_event. now eexists. }
  set (st0 := add_event _ st).
  pose proof (download_loop_progress env (length data_files) data_files 0
                overwrite_flag dir organization_id st0) as P.
  pose proof (download_loop_extends env (length data_files) data_files 0
                overwrite_flag dir organization_id st0) as X.
  destruct (download_loop env (length data_files) 0 data_files overwrite_flag
              dir organization_id st0) as [r st']. cbn [snd] in X.
  destruct P as (not_reached & E & Done). exists not_reached. split; [|exact Done].
  rewrite (issued_trans st st0 st' (extends_add_event _ _) X).
  subst st0. now rewrite issued_add_event.
Qed.

(** X3.  Every fetch of a run is of a file of the batch and on the account
    of the organization the call was given, and there are at most as many
    fetches as files. *)
Theorem fetches_are_of_the_batch
    (data_files : list (data_file Price)) (overwrite_flag : bool)
    (organization_id : string) (st : state) :
  let st' := snd (download_files env data_files overwrite_flag
                                 organization_id st) in
  fetches_within (map file data_files) organization_id (issued st st') /\
  count is_fetch (issued st st') <= length data_files.
Proof.
  intros st'. split.
  - apply (download_files_during
             (fetches_within (map file data_files) organization_id)).
    + constructor.
    + intros x y Fx Fy. apply Forall_app. now split.
    + intros. repeat constructor.
    + intros. repeat constructor.
    + intros dir df s I.
      destruct (download_file_facts env (file df) overwrite_flag dir
                  organization_id s) as (_ & _ & _ & Fw & _).
      eapply Forall_impl; [|exact Fw].
      intros [] P; auto. destruct P as [[<-|[]] ->].
      split; [now apply in_map | reflexivity].
  - subst st'. rewrite download_files_unfold. cbv zeta.
    destruct (get_data_directory env (trace st)) as [dir|e]; cbn [snd].
    2:{ rewrite issued_add_event. cbn. lia. }
    set (st0 := add_event _ st).
    pose proof (download_loop_fetch_count (length data_files) data_files 0
                  overwrite_flag dir organization_id st0) as C.
    pose proof (download_loop_extends env (length data_files) data_files 0
                  overwrite_flag dir organization_id st0) as X.
    rewrite (issued_trans st st0 _ (extends_add_event _ _) X).
    subst st0. rewrite issued_add_event, count_app. cbn. exact C.
Qed.

(** X4.  A run writes nothing but what it fetched: every write stores, at
    [data_dir / file] for a file of the batch, the content that the fetch of
    that file returned just before, right after the parent directory was
    made. *)
Theorem writes_only_what_was_fetched
    (data_files : list (data_file Price)) (overwrite_flag : bool)
    (organization_id : string) (st : state) :
  let st' := snd (download_files env data_files overwrite_flag
                                 organization_id st) in
  match get_data_directory env (trace st) with
  | Ok data_dir =>
      writes_what_was_fetched data_dir (map file data_files) organization_id
                              (issued st st')
  | Raise _ => count is_disk_write (issued st st') = 0
  end.
Proof.
  intros st'. subst st'. rewrite download_files_unfold. cbv zeta.
  destruct (get_data_directory env (trace st)) as [dir|e]; cbn [snd].
  2:{ now rewrite issued_add_event. }
  set (st0 := add_event _ st).
  destruct (download_loop_during env
              (writes_what_was_fetched dir (map file data_files)
                                       organization_id)
              (length data_files) overwrite_flag dir organization_id
              data_files) with (index := 0) (st := st0) as [X W].
  - intros before p content w after E. now destruct before.
  - apply writes_what_was_fetched_app.
  - intros. now apply writes_what_was_fetched_one.
  - intros df s I.
    destruct (download_file_facts env (file df) overwrite_flag dir
                organization_id s) as (_ & _ & _ & _ & _ & Wf & _).
    eapply writes_what_was_fetched_more; [|exact Wf]. now apply in_map.
  - rewrite (issued_trans st st0 _ (extends_add_event _ _) X).
    apply writes_what_was_fetched_app; [|exact W].
    subst st0. rewrite issued_add_event.
    now apply writes_what_was_fetched_one.
Qed.

(** X5.  With the overwrite flag set, a run never asks and leaves the
    overwrite decision as it was, whatever is on the disk; and every file it
    reaches is fetched: as many fetches as progress lines. *)
Theorem overwrite_flag_never_asks
    (data_files : list (data_file Price)) (organization_id : string)
    (st : state) :
  let st' := snd (download_files env data_files true organization_id st) in
  _force_overwrite st' = _force_overwrite st /\
  count is_confirm (issued st st') = 0 /\
  count is_fetch (issued st st') = count is_progress (issued st st').
Proof.
  intros st'. split; [|split].
  - apply (download_files_respects
             (fun a b => _force_overwrite b = _force_overwrite a)); auto.
    + intros a b c E1 E2. congruence.
    + intros dir df s I.
      destruct (download_file_facts env (file df) true dir
                  organization_id s) as (_ & _ & _ & _ & _ & _ & _ & F).
      exact (proj1 (F eq_refl)).
  - apply (download_files_during (fun evs => count is_confirm evs = 0));
      auto.
    + intros x y Cx Cy. rewrite count_app. lia.
    + intros dir df s I.
      destruct (download_file_facts env (file df) true dir
                  organization_id s) as (_ & _ & _ & _ & _ & _ & _ & F).
      exact (proj1 (proj2 (F eq_refl))).
  - subst st'. rewrite download_files_unfold. cbv zeta.
    destruct (get_data_directory env (trace st)) as [dir|e]; cbn [snd].
    2:{ now rewrite issued_add_event. }
    set (st0 := add_event _ st).
    pose proof (download_loop_fetches_all (length data_files) data_files 0
                  dir organization_id st0) as C.
    pose proof (download_loop_extends env (length data_files) data_files 0
                  true dir organization_id st0) as X.
    rewrite (issued_trans st st0 _ (extends_add_event _ _) X).
    subst st0. rewrite issued_add_event, !count_app. cbn. exact C.
Qed.

(** X6.  The prompt comes at most once: of two conflicts met in a row
    without the flag, the second gets the answer of the first, asks nothing
    and leaves the decision alone. *)
Theorem second_conflict_follows_the_first (first second : Path) (st : state) :
  let (r1, s1) := _should_overwrite env false first st in
  let (r2, s2) := _should_overwrite env false second s1 in
  r2 = r1 /\
  _force_overwrite s2 = _force_overwrite s1 /\
  count is_confirm (issued s1 s2) = 0 /\
  count is_confirm (issued st s2) <= 1.
Proof.
  destruct st as [force cache d t].
  destruct force as [[|]|]; run.
  - rewrite !issued_refl. repeat split; auto.
  - issued_simp. repeat split; auto.
  - destruct (click_confirm env _ _); st_simpl; issued_simp; repeat split; auto.
Qed.

(** X7.  Where no local file is in the way the overwrite policy is not
    consulted: the download starts with the fetch, asks nothing, and leaves
    the decision as it was, with or without the flag. *)
Theorem no_conflict_no_policy (relative_file : string) (overwrite_flag : bool)
    (data_directory : Path) (organization_id : string) (st : state) :
  fs_exists (disk st) (path_join data_directory relative_file) = false ->
  let (r, s) := _download_file env relative_file overwrite_flag data_directory
                               organization_id st in
  _force_overwrite s = _force_overwrite st /\
  count is_confirm (issued st s) = 0 /\
  exists rest,
    issued st s
    = DownloadFile relative_file organization_id
        (api_download_file env (trace st) relative_file organization_id)
      :: rest.
Proof.
  intros Absent.
  destruct (_download_file env relative_file overwrite_flag data_directory
                           organization_id st) as [r s] eqn:R.
  destruct st as [force cache d t]. cbn in Absent.
  paths R; try congruence; issued_simp; repeat split; auto; eexists;
    repeat match goal with
           | E : api_download_file _ _ _ _ = _ |- _ => rewrite E
           end; reflexivity.
Qed.

Lemma allowed_is_like_the_flag (relative_file : string)
    (data_directory : Path) (organization_id : string) (st : state) :
  _force_overwrite st = Some true ->
  _download_file env relative_file false data_directory organization_id st
  = _download_file env relative_file true data_directory organization_id st.
Proof.
  intros A.
  assert (S : forall p, _should_overwrite env false p st
                        = _should_overwrite env true p st).
  { intros p. unfold _should_overwrite, bind, gets. now rewrite A. }
  unfold _download_file, bind, path_exists, gets.
  destruct (fs_exists (disk st) _); [|reflexivity].
  now rewrite S.
Qed.

Lemma allowed_loop_is_like_the_flag (total : nat)
    (data_files : list (data_file Price)) (index : nat) (data_dir : Path)
    (organization_id : string) (st : state) :
  _force_overwrite st = Some true ->
  download_loop env total index data_files false data_dir organization_id st
  = download_loop env total index data_files true data_dir organization_id st.
Proof.
  revert index st. induction data_files as [|df files IH]; intros index st A;
    [reflexivity|].
  cbn [download_loop]. unfold bind, emit, modify.
  set (st0 := add_event _ st).
  assert (A0 : _force_overwrite st0 = Some true) by exact A.
  rewrite (allowed_is_like_the_flag (file df) data_dir organization_id st0 A0).
  pose proof (download_file_keeps_decision env (file df) true data_dir
                organization_id st0) as [_ K].
  rewrite A0 in K.
  destruct (_download_file env (file df) true data_dir organization_id st0)
    as [[[]|e] s1]; [|reflexivity].
  apply IH. apply K.
Qed.

(** X8.  Once the decision is [Allow], a run without the flag is the run
    with the flag: the same outcome, the same events, the same disk. *)
Theorem allowed_run_is_the_flagged_run
    (data_files : list (data_file Price)) (organization_id : string)
    (st : state) :
  _force_overwrite st = Some true ->
  download_files env data_files false organization_id st
  = download_files env data_files true organization_id st.
Proof.
  intros A. rewrite !download_files_unfold. cbv zeta.
  destruct (get_data_directory env (trace st)); [|reflexivity].
  now apply allowed_loop_is_like_the_flag.
Qed.

Lemma declined_download_skips (relative_file : string) (data_dir : Path)
    (organization_id : string) (st : state) :
  (forall t p, click_confirm env t p = false) ->
  _force_overwrite st <> Some true ->
  fs_exists (disk st) (path_join data_dir relative_file) = true ->
  let (r, s) := _download_file env relative_file false data_dir
                               organization_id st in
  r = Ok tt /\ disk s = disk st /\ _force_overwrite s = Some false /\
  extends st s /\ count is_fetch (issued st s) = 0.
Proof.
  intros Declines Open There.
  destruct (_download_file env relative_file false data_dir organization_id st)
    as [r s] eqn:R.
  destruct st as [force cache d t]. cbn in Open, There.
  revert R. unfold_methods. st_simpl. rewrite There. st_simpl.
  destruct force as [[|]|]; [congruence | |]; st_simpl;
    rewrite ?Declines; st_simpl; intros [= <- <-]; st_simpl.
  all: repeat split; auto;
    try (eapply extends_intro; st_simpl; rewrite <- ?app_assoc; reflexivity);
    now issued_simp.
Qed.

Lemma declined_loop_skips (total : nat) (data_files : list (data_file Price))
    (index : nat) (data_dir : Path) (organization_id : string) (st : state) :
  (forall t p, click_confirm env t p = false) ->
  _force_overwrite st <> Some true ->
  Forall (fun df => fs_exists (disk st) (path_join data_dir (file df)) = true)
         data_files ->
  let (r, s) := download_loop env total index data_files false data_dir
                              organization_id st in
  r = Ok tt /\ disk s = disk st /\ extends st s /\
  count is_fetch (issued st s) = 0.
Proof.
  intros Declines. revert index st.
  induction data_files as [|df files IH]; intros index st Open There.
  - cbn. rewrite issued_refl. auto using extends_refl.
  - inversion There as [|? ? T1 T2]; subst.
    cbn [download_loop]. unfold bind, emit, modify.
    set (st0 := add_event _ st).
    pose proof (declined_download_skips (file df) data_dir organization_id st0
                  Declines Open T1) as D.
    destruct (_download_file env (file df) false data_dir organization_id st0)
      as [r1 s1]. destruct D as (-> & D1 & F1 & X1 & C1).
    assert (Open1 : _force_overwrite s1 <> Some true) by congruence.
    assert (There1 : Forall (fun df => fs_exists (disk s1)
                                         (path_join data_dir (file df)) = true)
                            files) by now rewrite D1.
    specialize (IH (S index) s1 Open1 There1).
    destruct (download_loop env total (S index) files false data_dir
                organization_id s1) as [r s].
    destruct IH as (-> & D2 & X2 & C2).
    assert (X0 : extends st st0) by apply extends_add_event.
    repeat split.
    + now rewrite D2, D1.
    + eauto using extends_trans.
    + rewrite (issued_trans st st0 s X0 (extends_trans _ _ _ X1 X2)).
      rewrite (issued_trans st0 s1 s X1 X2).
      subst st0. rewrite issued_add_event, !count_app, C1, C2. reflexivity.
Qed.

(** X9.  A user who declines is charged nothing for what is already there:
    when every file of the batch exists under the data directory and the
    decision is not [Allow], a run without the flag ends normally, fetches
    nothing, asks at most once and leaves the disk as it was. *)
Theorem declined_run_fetches_nothing
    (data_files : list (data_file Price)) (organization_id : string)
    (data_dir : Path) (st : state) :
  (forall t p, click_confirm env t p = false) ->
  _force_overwrite st <> Some true ->
  get_data_directory env (trace st) = Ok data_dir ->
  Forall (fun df => fs_exists (disk st) (path_join data_dir (file df)) = true)
         data_files ->
  let (r, st') := download_files env data_files false organization_id st in
  r = Ok tt /\ disk st' = disk st /\
  count is_fetch (issued st st') = 0 /\
  count is_confirm (issued st st') <= 1.
Proof.
  intros Declines Open Dir There.
  pose proof (download_files_keeps_decision env data_files false
                organization_id st) as [_ K].
  revert K. rewrite download_files_unfold, Dir. cbv zeta.
  set (st0 := add_event _ st).
  pose proof (declined_loop_skips (length data_files) data_files 0 data_dir
                organization_id st0 Declines Open There) as L.
  match goal with
  | |- _ -> let (_, _) := ?run in _ => destruct run as [r st'] eqn:E
  end.
  cbn [snd]. destruct L as (-> & D & X & C). intros K.
  rewrite ?E in K. cbn [snd] in K.
  split; [reflexivity|]. split; [exact D|]. split.
  - rewrite (issued_trans st st0 st' (extends_add_event _ _) X).
    subst st0. now rewrite issued_add_event, count_app, C.
  - destruct (_force_overwrite st), (_force_overwrite st'); lia.
Qed.

Lemma accepted_download_fetches (relative_file : string) (data_dir : Path)
    (organization_id : string) (st : state) :
  (forall t p, click_confirm env t p = true) ->
  _force_overwrite st <> Some false ->
  let s := snd (_download_file env relative_file false data_dir
                               organization_id st) in
  _force_overwrite s <> Some false /\ count is_fetch (issued st s) = 1.
Proof.
  intros Accepts Open.
  destruct (_download_file env relative_file false data_dir organization_id st)
    as [r s] eqn:R.
  cbn [snd]. destruct st as [force cache d t]. cbn in Open.
  revert R. unfold_methods. st_simpl.
  destruct force as [[|]|]; [| congruence |]; st_simpl;
    rewrite ?Accepts; st_simpl; intros R; paths R.
  all: rewrite ?Accepts in *; st_simpl; try discriminate.
  all: split; [st_simpl; congruence | now issued_simp].
Qed.

Lemma accepted_loop_fetches (total : nat) (data_files : list (data_file Price))
    (index : nat) (data_dir : Path) (organization_id : string) (st : state) :
  (forall t p, click_confirm env t p = true) ->
  _force_overwrite st <> Some false ->
  let s := snd (download_loop env total index data_files false data_dir
                              organization_id st) in
  _force_overwrite s <> Some false /\
  count is_fetch (issued st s) = count is_progress (issued st s).
Proof.
  intros Accepts. revert index st.
  induction data_files as [|df files IH]; intros index st Open.
  - cbn [download_loop ret snd]. now rewrite issued_refl.
  - cbn [download_loop]. unfold bind, emit, modify.
    set (st0 := add_event _ st).
    destruct (accepted_download_fetches (file df) data_dir organization_id st0
                Accepts Open) as [Open1 C1].
    destruct (download_file_facts env (file df) false data_dir
                organization_id st0) as (X1 & _ & Dl & _).
    apply no_progress_in_a_download in Dl.
    assert (X0 : extends st st0) by apply extends_add_event.
    destruct (_download_file env (file df) false data_dir organization_id st0)
      as [[[]|e] s1]; cbn [snd] in *.
    + destruct (IH (S index) s1 Open1) as [Open2 C2].
      pose proof (download_loop_extends env total files (S index)
                    false data_dir organization_id s1) as X2.
      split; [exact Open2|].
      rewrite (issued_trans st st0 _ X0 (extends_trans _ _ _ X1 X2)).
      rewrite (issued_trans st0 s1 _ X1 X2).
      assert (Z : count is_progress (issued st0 s1) = 0)
        by (unfold count; now rewrite Dl).
      rewrite !count_app, C2, C1, Z.
      subst st0. rewrite issued_add_event. cbn. lia.
    + split; [exact Open1|].
      rewrite (issued_trans st st0 s1 X0 X1).
      assert (Z : count is_progress (issued st0 s1) = 0)
        by (unfold count; now rewrite Dl).
      rewrite !count_app, C1, Z.
      subst st0. rewrite issued_add_event. cbn. lia.
Qed.

(** X10.  A user who accepts gets everything: when the decision is not
    [Deny], a run without the flag fetches every file it reaches, present on
    the disk or not, and asks at most once. *)
Theorem accepted_run_fetches_everything
    (data_files : list (data_file Price)) (organization_id : string)
    (st : state) :
  (forall t p, click_confirm env t p = true) ->
  _force_overwrite st <> Some false ->
  let st' := snd (download_files env data_files false organization_id st) in
  count is_fetch (issued st st') = count is_progress (issued st st') /\
  count is_confirm (issued st st') <= 1 /\
  _force_overwrite st' <> Some false.
Proof.
  intros Accepts Open st'.
  pose proof (download_files_keeps_decision env data_files false
                organization_id st) as [_ K].
  fold st' in K. subst st'. revert K.
  rewrite download_files_unfold. cbv zeta.
  destruct (get_data_directory env (trace st)) as [dir|e]; cbn [snd].
  2:{ rewrite issued_add_event. intros _. repeat split; auto. }
  set (st0 := add_event _ st).
  destruct (accepted_loop_fetches (length data_files) data_files 0 dir
              organization_id st0 Accepts Open) as [Open' C].
  pose proof (download_loop_extends env (length data_files) data_files 0
                false dir organization_id st0) as X.
  intros K. repeat split; [| | exact Open'].
  - rewrite (issued_trans st st0 _ (extends_add_event _ _) X).
    subst st0. rewrite issued_add_event, !count_app. cbn. exact C.
  - destruct (_force_overwrite st),
      (_force_overwrite (snd (download_loop env (length data_files) 0
                                data_files false dir organization_id st0)));
      lia.
Qed.

End WholeBatch.

(* ------------------------------------------------------------------ *)
(** *** More about the map files *)

Ltac reads_summary :=
  repeat match goal with
  | Hq : read_map_files ?e ?z ?n ?a ?s = _ |- _ =>
      let RS := fresh "RS" in
      pose proof (read_map_files_summary e z n a s) as RS;
      rewrite Hq in RS;
      destruct RS as (X & Dk & C & F & Only & Out)
  end.

Ltac through_reads :=
  rewrite ?issued_set_map_files_cache;
  match goal with
  | X : extends ?sk ?s |- context [issued ?st ?s] =>
      rewrite (issued_trans st sk s
                 ltac:(eapply extends_intro; st_simpl;
                       rewrite <- ?app_assoc; reflexivity) X)
  end;
  issued_simp.

Ltac no_archive_there :=
  match goal with
  | N : fs_is_file ?d ?p = false, O : fs_zip_open ?d ?p = Ok _ |- _ =>
      pose proof (fs_zip_open_is_file d p N) as Bad;
      rewrite O in Bad; discriminate Bad
  end.

Section MapFilesMore.

Context {MapFile Price FS : Type} `{FileSystem FS}.
Variable env : Env MapFile Price.

Local Abbreviation state := (state MapFile Price FS).
Local Abbreviation event := (event MapFile Price).

Lemma entry_events_are_no_prompt (organization_id : string) (evs : list event) :
  Forall (fun ev => is_entry_event ev = true) evs ->
  length (filter is_confirm evs) = 0 /\
  length (filter is_disk_write evs) = 0 /\
  Forall (billed_to organization_id) evs.
Proof.
  induction 1 as [|ev evs E _ (IH1 & IH2 & IH3)];
    [repeat split; constructor|].
  destruct ev; try discriminate E; cbn [filter is_confirm is_disk_write];
    repeat split; auto; constructor; auto; exact I.
Qed.

(** X11.  [download_map_files] never asks and leaves the overwrite decision
    as it was: the bundle is downloaded with the flag set.  It fetches at
    most once, on the account of the organization it was given. *)
Theorem map_files_never_ask (organization_id : string) (st : state) :
  let st' := snd (download_map_files env organization_id st) in
  _force_overwrite st' = _force_overwrite st /\
  count is_confirm (issued st st') = 0 /\
  count is_fetch (issued st st') <= 1 /\
  Forall (billed_to organization_id) (issued st st').
Proof.
  intros st'. subst st'.
  destruct (_map_files_cache st) as [cached|] eqn:C.
  { rewrite (download_map_files_cached env organization_id st cached C).
    cbn [snd]. rewrite issued_refl. repeat split; auto. }
  destruct (download_map_files env organization_id st) as [r st1] eqn:R.
  cbn [snd]. destruct st as [force cache d t]. cbn in C. subst cache.
  paths R; reads_summary; st_simpl.
  all: try through_reads.
  all: issued_simp.
  all: try (pose proof (entry_events_are_no_prompt organization_id _ Only)
              as (Q1 & Q2 & Q3);
            pose proof (entry_events_are_quiet _ Only) as (Q4 & Q5);
            rewrite ?Q1, ?Q2, ?Q4, ?Q5).
  all: repeat split; auto.
  all: repeat (constructor; cbn [billed_to]; auto).
Qed.

(** X12.  A bundle that is already a regular file in the data directory is
    not downloaded again: the call goes from the listing and the
    data-directory lookup straight to opening the archive; it fetches
    nothing, writes nothing and leaves the disk as it was. *)
Theorem bundle_on_disk_is_not_fetched (organization_id : string) (st : state)
    (entries : list string) (bundle : string) (data_dir : Path) :
  _map_files_cache st = None ->
  api_list_files env (trace st) map_files_prefix = Ok entries ->
  latest_map_files_zip entries = Ok bundle ->
  get_data_directory env
    (trace st ++ [ListFiles map_files_prefix (Ok entries)])%list = Ok data_dir ->
  fs_is_file (disk st) (path_join data_dir bundle) = true ->
  let st' := snd (download_map_files env organization_id st) in
  disk st' = disk st /\
  count is_fetch (issued st st') = 0 /\
  count is_disk_write (issued st st') = 0 /\
  exists reads,
    issued st st'
    = ListFiles map_files_prefix (Ok entries)
      :: GetDataDirectory (Ok data_dir)
      :: ZipOpen (path_join data_dir bundle)
           (fs_zip_open (disk st) (path_join data_dir bundle))
      :: reads /\
    Forall (fun ev => is_entry_event ev = true) reads.
Proof.
  intros Cold Listed Latest Dir There st'. subst st'.
  destruct (download_map_files env organization_id st) as [r st1] eqn:R.
  cbn [snd]. destruct st as [force cache d t].
  cbn in Cold, Listed, Dir, There. subst cache.
  revert R. unfold_methods. st_simpl.
  rewrite Listed. st_simpl. rewrite Latest. st_simpl.
  rewrite Dir. st_simpl. rewrite There. st_simpl.
  intros R. paths R; reads_summary; st_simpl.
  all: try through_reads.
  all: issued_simp.
  all: try (pose proof (entry_events_are_no_prompt organization_id _ Only)
              as (Q1 & Q2 & Q3);
            pose proof (entry_events_are_quiet _ Only) as (Q4 & Q5);
            rewrite ?Q2, ?Q5).
  all: repeat split; auto.
  all: eexists; split;
    [repeat match goal with
            | E : fs_zip_open _ _ = _ |- _ => rewrite E
            end; reflexivity
    | auto].
Qed.

Lemma read_map_files_in_order (z : zip_archive) (names : list string)
    (acc : list MapFile) (st : state) (map_files : list MapFile) :
  fst (read_map_files env z names acc st) = Ok map_files ->
  exists parsed,
    map_files = (acc ++ parsed)%list /\
    Forall2 (parsed_entry env z) names parsed.
Proof.
  revert acc st. induction names as [|name rest IH]; intros acc st.
  - cbn. intros [= <-]. exists []. split; [now rewrite app_nil_r | constructor].
  - cbn [read_map_files]. unfold bind, read_zip, decode, parse, call.
    destruct (zip_read z name) as [raw|e] eqn:R; [|discriminate].
    destruct (decode_utf8 env raw) as [text|e] eqn:D; [|discriminate].
    destruct (MapFile_parse env text) as [mf|e] eqn:P; [|discriminate].
    intros E. apply IH in E. destruct E as (parsed & -> & F).
    exists (mf :: parsed). split; [now rewrite <- app_assoc|].
    constructor; [now exists raw, text | exact F].
Qed.

(** X13.  The list an uncached call returns has one map file per entry of
    the archive it opened, in the order of the archive's entries, each the
    parse of the decoded content that reading the entry by its name gives. *)
Theorem map_files_follow_the_archive (organization_id : string) (st : state)
    (map_files : list MapFile) :
  _map_files_cache st = None ->
  fst (download_map_files env organization_id st) = Ok map_files ->
  exists p z,
    In (ZipOpen p (Ok z))
       (issued st (snd (download_map_files env organization_id st))) /\
    length map_files = length (filelist z) /\
    Forall2 (parsed_entry env z) (filelist z) map_files.
Proof.
  intros Cold.
  destruct (download_map_files env organization_id st) as [r st1] eqn:R.
  cbn [fst snd]. intros ->.
  destruct st as [force cache d t]. cbn in Cold. subst cache.
  paths R.
  all: match goal with
       | Hq : read_map_files ?e ?z ?n ?a ?s = (Ok ?l, _) |- _ =>
           pose proof (read_map_files_in_order z n a s l) as Order;
           rewrite Hq in Order;
           destruct (Order eq_refl) as (parsed & -> & F2)
       end.
  all: reads_summary; st_simpl; through_reads.
  all: eexists _, _; split;
    [| split; [symmetry; eapply Forall2_length; exact F2 | exact F2]].
  all: cbn [In]; auto 12.
Qed.

End MapFilesMore.

(* ------------------------------------------------------------------ *)
(** *** More about the equity-option product *)

Lemma lower_ascii_twice (c : ascii) :
  PyStr.lower_ascii (PyStr.lower_ascii c) = PyStr.lower_ascii c.
Proof.
  destruct c as [[] [] [] [] [] [] [] []]; reflexivity.
Qed.

Lemma lower_twice (s : string) : PyStr.lower (PyStr.lower s) = PyStr.lower s.
Proof.
  induction s as [|c s IH]; [reflexivity|].
  cbn [PyStr.lower]. now rewrite lower_ascii_twice, IH.
Qed.

Section ProductMore.

Context {MapFile Price FS : Type} `{FileSystem FS}.
Variable env : Env MapFile Price.

Local Abbreviation state := (state MapFile Price FS).
Local Abbreviation event := (event MapFile Price).

(** X14.  For data other than chains, [_get_data_files] is one date-range
    query, under option/{market lowercased}/minute/{ticker lowercased}/ with
    the pattern of the data type and option style, whose answer (a list, the
    empty one too, or an exception) it hands on unchanged; the tradable
    calendar is not asked.  If the product has no option style the pattern
    cannot be made: [AttributeError], and no query. *)
Theorem dated_files_are_one_range_query
    (self : EquityOptionProduct) (st : state) :
  DataTypeEnum.is_chains (_data_type self) = false ->
  let (r, st') := _get_data_files env self st in
  match _option_style self with
  | Some style =>
      let prefix := ("option/" ++ PyStr.lower (_market self) ++ "/minute")
                    ++ "/" ++ PyStr.lower (_ticker self) ++ "/" in
      let pattern := "/(\d+)_" ++ PyStr.lower (DataTypeEnum.name (_data_type self))
                     ++ "_" ++ PyStr.lower (OptionStyleEnum.name style)
                     ++ "\.zip" in
      let answer := data_files_in_range env self (trace st) prefix pattern in
      r = answer /\
      st' = add_event (DataFilesInRange prefix pattern answer) st
  | None => r = Raise AttributeError /\ st' = st
  end.
Proof.
  intros Kind. unfold _get_data_files, base_directory. rewrite Kind.
  cbn [negb]. unfold bind, option_style_name, _get_data_files_in_range, call.
  destruct (_option_style self) as [style|]; cbn; auto.
Qed.

(** X15.  The probe looks where the files are looked for: for a ticker and
    a data type other than chains, [validate_ticker] lists the very prefix
    under which [_get_data_files] of the product that [build] makes queries
    the dates, and the two patterns differ only in the group that captures
    the date. *)
Theorem probe_and_files_share_the_prefix
    (data_type : DataType) (style : OptionStyle) (ticker resolution : string)
    (first last : option string) (st1 st2 : state) :
  DataTypeEnum.is_chains data_type = false ->
  let self := {| _data_type := data_type;
                 _market := build_market;
                 _ticker := ticker;
                 _resolution := resolution;
                 _option_style := Some style;
                 _start_date := first;
                 _end_date := last |} in
  exists prefix rest listed found,
    issued st1 (snd (validate_ticker env data_type (Some style) ticker st1))
    = [ListFiles prefix listed] /\
    issued st2 (snd (_get_data_files env self st2))
    = [DataFilesInRange prefix ("/(\d+)" ++ rest) found] /\
    probe_pattern data_type (OptionStyleEnum.name style) = "/\d+" ++ rest.
Proof.
  intros Kind self.
  set (prefix := base_directory build_market data_type ++ "/"
                 ++ PyStr.lower ticker ++ "/").
  set (rest := "_" ++ PyStr.lower (DataTypeEnum.name data_type) ++ "_"
               ++ PyStr.lower (OptionStyleEnum.name style) ++ "\.zip").
  exists prefix, rest, (api_list_files env (trace st1) prefix),
    (data_files_in_range env self (trace st2) prefix ("/(\d+)" ++ rest)).
  unfold validate_ticker, _get_data_files, self.
  cbn [_data_type _market _ticker _option_style]. rewrite Kind. cbn [negb].
  unfold option_style_name, _list_files, list_files,
    _get_data_files_in_range, call, ret, bind.
  cbv beta. fold prefix. split; [|split].
  - destruct (api_list_files env (trace st1) prefix); cbn [snd];
      now rewrite issued_add_event.
  - cbn [snd]. now rewrite issued_add_event.
  - reflexivity.
Qed.

(** X16.  The probe does not depend on the case of the ticker: SPY and spy
    are probed alike, with the same listing and the same answer. *)
Theorem probe_ignores_ticker_case
    (data_type : DataType) (option_style : option OptionStyle)
    (ticker : string) (st : state) :
  validate_ticker env data_type option_style (PyStr.lower ticker) st
  = validate_ticker env data_type option_style ticker st.
Proof.
  unfold validate_ticker. now rewrite lower_twice.
Qed.

Context {SecurityType Organization : Type}.
Variable EquityOption : SecurityType.
Variable QCResolution_Minute : string.
Variable prompts : @Prompts MapFile Price FS SecurityType.

(** X17.  When [build] succeeds it returns exactly one product, for the
    market USA, whose option style is missing exactly when its data type is
    chains and whose resolution is "chains" for chains data and minute
    otherwise.  So [_get_data_files] of that product never fails for want of
    an option style: from any state it makes exactly one query. *)
Theorem build_makes_one_fitting_product
    (organization : Organization) (st : state)
    (products : list EquityOptionProduct) :
  fst (build env EquityOption QCResolution_Minute prompts organization st)
  = Ok products ->
  exists p,
    products = [p] /\
    _market p = "USA" /\
    style_fits_kind p /\
    _resolution p = (if DataTypeEnum.is_chains (_data_type p)
                     then "chains" else QCResolution_Minute) /\
    forall s : state, exists query,
      issued s (snd (_get_data_files env p s)) = [query].
Proof.
  destruct (build env EquityOption QCResolution_Minute prompts organization st)
    as [r s0] eqn:R.
  cbn [fst]. intros ->. revert R.
  unfold build, option_style_name, bind, ret, raise. cbv zeta.
  destruct (_ask_data_type prompts _ st) as [[kind|e] s1]; [|discriminate].
  destruct kind; cbn [DataTypeEnum.is_chains negb]; branches.
  all: intros E; try discriminate E; injection E as <- <-.
  all: eexists; split; [reflexivity|]; split; [reflexivity|];
    split; [exact I|]; split; [reflexivity|].
  all: intros from; unfold _get_data_files; cbn [_data_type _option_style
         DataTypeEnum.is_chains negb];
    unfold bind, option_style_name, _get_data_files_in_range,
      _get_tradable_dates, call, ret.
  all: try (eexists; cbn [snd]; now rewrite issued_add_event).
  all: destruct (tradable_dates env _ (trace from)); eexists; cbn [snd];
    now rewrite issued_add_event.
Qed.

End ProductMore.

(* ------------------------------------------------------------------ *)
(** *** The properties above, on the sample worlds *)

Lemma no_conflict_no_policy_witness :
  let (r, s) := _download_file Demo.declining "a/x.zip" false "data" "org"
                               (Demo.fresh []) in
  _force_overwrite s = None /\
  count is_confirm (issued (Demo.fresh []) s) = 0 /\
  exists rest,
    issued (Demo.fresh []) s
    = DownloadFile "a/x.zip" "org"
        (api_download_file Demo.declining (trace (Demo.fresh [])) "a/x.zip" "org")
      :: rest.
Proof.
  assert (Absent : fs_exists (disk (Demo.fresh [])) (path_join "data" "a/x.zip")
                   = false) by reflexivity.
  exact (no_conflict_no_policy Demo.declining "a/x.zip" false "data" "org"
           (Demo.fresh []) Absent).
Defined.

Lemma allowed_run_is_the_flagged_run_witness :
  download_files Demo.declining [Demo.file_x; Demo.file_w] false "org"
                 Sample.allowed
  = download_files Demo.declining [Demo.file_x; Demo.file_w] true "org"
                   Sample.allowed.
Proof.
  assert (Allowed : _force_overwrite Sample.allowed = Some true) by reflexivity.
  exact (allowed_run_is_the_flagged_run Demo.declining
           [Demo.file_x; Demo.file_w] "org" Sample.allowed Allowed).
Defined.

Lemma bundle_on_disk_is_not_fetched_witness :
  let st := Demo.fresh Sample.disk_with_bundle in
  let st' := snd (download_map_files Demo.declining "org" st) in
  disk st' = Sample.disk_with_bundle /\
  count is_fetch (issued st st') = 0 /\
  count is_disk_write (issued st st') = 0.
Proof.
  pose proof (bundle_on_disk_is_not_fetched Demo.declining "org"
                (Demo.fresh Sample.disk_with_bundle)
                ["b.zip"; "a.zip"; "readme.txt"] "a.zip" "data") as W.
  assert (Cold : _map_files_cache (Demo.fresh Sample.disk_with_bundle) = None)
    by reflexivity.
  assert (Listed : api_list_files Demo.declining
                     (trace (Demo.fresh Sample.disk_with_bundle))
                     map_files_prefix
                   = Ok ["b.zip"; "a.zip"; "readme.txt"]) by reflexivity.
  assert (Latest : latest_map_files_zip ["b.zip"; "a.zip"; "readme.txt"]
                   = Ok "a.zip") by reflexivity.
  assert (Dir : get_data_directory Demo.declining
                  (trace (Demo.fresh Sample.disk_with_bundle)
                   ++ [ListFiles map_files_prefix
                         (Ok ["b.zip"; "a.zip"; "readme.txt"])])%list
                = Ok "data") by reflexivity.
  assert (There : fs_is_file (disk (Demo.fresh Sample.disk_with_bundle))
                    (path_join "data" "a.zip") = true) by reflexivity.
  destruct (W Cold Listed Latest Dir There) as (D & F & Wr & _).
  repeat split; assumption.
Defined.

Lemma map_files_follow_the_archive_witness :
  exists p z,
    In (ZipOpen p (Ok z))
       (issued (Demo.fresh [])
          (snd (download_map_files Demo.declining "org" (Demo.fresh [])))) /\
    length ["hello"] = length (filelist z) /\
    Forall2 (parsed_entry Demo.declining z) (filelist z) ["hello"].
Proof.
  assert (Cold : _map_files_cache (Demo.fresh []) = None) by reflexivity.
  assert (Done : fst (download_map_files Demo.declining "org" (Demo.fresh []))
                 = Ok ["hello"]) by (vm_compute; reflexivity).
  exact (map_files_follow_the_archive Demo.declining "org" (Demo.fresh [])
           ["hello"] Cold Done).
Defined.

Lemma dated_files_are_one_range_query_witness :
  _get_data_files Demo.calendar Sample.spy_trades (Demo.fresh [])
  = (Ok [],
     add_event (DataFilesInRange "option/usa/minute/spy/"
                  "/(\d+)_trade_american\.zip" (Ok []))
       (Demo.fresh [])).
Proof.
  assert (Kind : DataTypeEnum.is_chains (_data_type Sample.spy_trades) = false)
    by reflexivity.
  pose proof (dated_files_are_one_range_query Demo.calendar Sample.spy_trades
                (Demo.fresh []) Kind) as W.
  destruct (_get_data_files Demo.calendar Sample.spy_trades (Demo.fresh []))
    as [r st'].
  destruct W as [-> ->]. reflexivity.
Defined.

Lemma probe_and_files_share_the_prefix_witness :
  exists prefix rest listed found,
    issued (Demo.fresh [])
      (snd (validate_ticker Demo.calendar Trade (Some American) "SPY"
              (Demo.fresh [])))
    = [ListFiles prefix listed] /\
    issued (Demo.fresh [])
      (snd (_get_data_files Demo.calendar Sample.spy_trades (Demo.fresh [])))
    = [DataFilesInRange prefix ("/(\d+)" ++ rest) found] /\
    probe_pattern Trade (OptionStyleEnum.name American) = "/\d+" ++ rest.
Proof.
  assert (Kind : DataTypeEnum.is_chains Trade = false) by reflexivity.
  exact (probe_and_files_share_the_prefix Demo.calendar Trade American "SPY"
           "Minute" None None (Demo.fresh []) (Demo.fresh []) Kind).
Defined.

Lemma build_makes_one_fitting_product_witness :
  exists p,
    [Sample.spy_trades] = [p] /\
    _market p = "USA" /\
    style_fits_kind p /\
    _resolution p = (if DataTypeEnum.is_chains (_data_type p)
                     then "chains" else "Minute") /\
    forall s : state string nat Demo.MemFS, exists query,
      issued s (snd (_get_data_files Demo.calendar p s)) = [query].
Proof.
  assert (Built : fst (build Demo.calendar tt "Minute" (Sample.user Trade) tt
                         (Demo.fresh []))
                  = Ok [Sample.spy_trades]) by (vm_compute; reflexivity).
  exact (build_makes_one_fitting_product Demo.calendar tt "Minute"
           (Sample.user Trade) tt (Demo.fresh []) [Sample.spy_trades] Built).
Defined.

(** A chains request goes through [build] without a question about the
    option style and without a listing. *)
Example build_for_chains :
  build Demo.calendar tt "Minute" (Sample.user Chains) tt (Demo.fresh [])
  = (Ok [ {| _data_type := Chains;
             _market := "USA";
             _ticker := "SPY";
             _resolution := "chains";
             _option_style := None;
             _start_date := None;
             _end_date := None |} ],
     Demo.fresh []).
Proof. reflexivity. Qed.

Lemma declined_run_fetches_nothing_witness :
  let st := Demo.fresh Sample.disk_with_both in
  let (r, st') := download_files Demo.declining [Demo.file_x; Demo.file_w]
                                 false "org" st in
  r = Ok tt /\ disk st' = Sample.disk_with_both /\
  count is_fetch (issued st st') = 0 /\
  count is_confirm (issued st st') <= 1.
Proof.
  assert (Declines : forall t p, click_confirm Demo.declining t p = false)
    by reflexivity.
  assert (Open : _force_overwrite (Demo.fresh Sample.disk_with_both)
                 <> Some true) by discriminate.
  assert (Dir : get_data_directory Demo.declining
                  (trace (Demo.fresh Sample.disk_with_both)) = Ok "data")
    by reflexivity.
  assert (There : Forall (fun df => fs_exists
                                      (disk (Demo.fresh Sample.disk_with_both))
                                      (path_join "data" (file df)) = true)
                         [Demo.file_x; Demo.file_w])
    by (repeat constructor).
  exact (declined_run_fetches_nothing Demo.declining
           [Demo.file_x; Demo.file_w] "org" "data"
           (Demo.fresh Sample.disk_with_both) Declines Open Dir There).
Defined.

Lemma accepted_run_fetches_everything_witness :
  let st := Demo.fresh Demo.disk_with_x in
  let st' := snd (download_files Demo.accepting [Demo.file_x; Demo.file_w]
                                 false "org" st) in
  count is_fetch (issued st st') = count is_progress (issued st st') /\
  count is_confirm (issued st st') <= 1 /\
  _force_overwrite st' <> Some false.
Proof.
  assert (Accepts : forall t p, click_confirm Demo.accepting t p = true)
    by reflexivity.
  assert (Open : _force_overwrite (Demo.fresh Demo.disk_with_x) <> Some false)
    by discriminate.
  exact (accepted_run_fetches_everything Demo.accepting
           [Demo.file_x; Demo.file_w] "org" (Demo.fresh Demo.disk_with_x)
           Accepts Open).
Defined.

(** The run of the second sample: one prompt, then both files fetched and
    stored over what was there or missing. *)
Example accepted_run :
  let (r, st') := download_files Demo.accepting [Demo.file_x; Demo.file_w]
                                 false "org" (Demo.fresh Demo.disk_with_x) in
  r = Ok tt /\
  count is_confirm (trace st') = 1 /\ count is_fetch (trace st') = 2 /\
  _force_overwrite st' = Some true.
Proof. vm_compute. repeat split; reflexivity. Qed.
